(** * Name resolution over a workspace directory

    A shallow embedding of the identity-resolution code of the repository:

    - [backend/open_webui/notion_workspace_manager.py]
      ([_build_name_mapping], [find_user_by_name], [get_name_suggestions],
      [get_user_id_by_name]),
    - [backend/open_webui/routers/notion_workspace_api.py]
      ([match_user_name]),
    - [fetch_notion_users_paginated.py]
      ([fetch_users_in_batches], [verify_extraction]).

    Conventions of the embedding.

    - A Python [str] is a [string] whose characters are the code points
      0..255; [str.lower], [str.strip] and [str.split] are modelled on that
      range exactly as CPython behaves there.
    - A Python [dict] used as a map is a [gmap]; a user object is a record.
    - A score is the exact rational value of the expression the code
      evaluates in double precision ([Q]).
    - [difflib.SequenceMatcher(None, a, b).ratio()] belongs to the Python
      standard library; [Difflib.ratio] transcribes its algorithm. *)

From Stdlib Require Import QArith Qminmax Lqa.
From Stdlib Require Import Ascii String List Bool Arith Lia ZArith Sorted Permutation.
From stdpp Require Import gmap strings list fin_maps.

Local Open Scope string_scope.
Local Open Scope list_scope.

(* ===================================================================== *)
(** ** Python string primitives *)
(* ===================================================================== *)

Module PyStr.

(** [str.isspace] on one character: code points 9..13, 28..32, 133, 160. *)
Definition is_space (c : ascii) : bool :=
  let n := nat_of_ascii c in
  (((9 <=? n) && (n <=? 13)) || ((28 <=? n) && (n <=? 32))
   || (n =? 133) || (n =? 160))%nat.

(** [str.lower] on one character: A..Z and the Latin-1 capitals
    192..222 (except the multiplication sign 215) move up by 32. *)
Definition lower_char (c : ascii) : ascii :=
  let n := nat_of_ascii c in
  if (((65 <=? n) && (n <=? 90))
      || ((192 <=? n) && (n <=? 222) && negb (n =? 215)))%nat
  then ascii_of_nat (n + 32) else c.

(** [s.lower()] *)
Fixpoint lower (s : string) : string :=
  match s with
  | EmptyString => EmptyString
  | String c s' => String (lower_char c) (lower s')
  end.

(** [s.lstrip()] *)
Fixpoint lstrip (s : string) : string :=
  match s with
  | EmptyString => EmptyString
  | String c s' => if is_space c then lstrip s' else s
  end.

(** [s.rstrip()]: a trailing run of white space is dropped. *)
Fixpoint rstrip (s : string) : string :=
  match s with
  | EmptyString => EmptyString
  | String c s' =>
      match rstrip s' with
      | EmptyString => if is_space c then EmptyString else String c EmptyString
      | r => String c r
      end
  end.

(** [s.strip()] *)
Definition strip (s : string) : string := rstrip (lstrip s).

(** [s.split()] with no separator: the maximal runs of characters that
    are not white space, in order; [cur] is the run being read. *)
Fixpoint split_from (cur : string) (s : string) : list string :=
  match s with
  | EmptyString =>
      match cur with EmptyString => [] | _ => [cur] end
  | String c s' =>
      if is_space c then
        match cur with
        | EmptyString => split_from EmptyString s'
        | _ => cur :: split_from EmptyString s'
        end
      else split_from (cur ++ String c EmptyString) s'
  end.

Definition split (s : string) : list string := split_from EmptyString s.

(** [s.startswith(p)] *)
Fixpoint startswith (s p : string) : bool :=
  match p, s with
  | EmptyString, _ => true
  | String _ _, EmptyString => false
  | String b p', String a s' => if ascii_dec a b then startswith s' p' else false
  end.

(** [p in s] *)
Fixpoint contains (s p : string) : bool :=
  startswith s p ||
  match s with
  | EmptyString => false
  | String _ s' => contains s' p
  end.

(** [bool(s)] for a string: true unless empty. *)
Definition truthy (s : string) : bool :=
  match s with EmptyString => false | _ => true end.

(** [a == b] *)
Definition eqb (a b : string) : bool := bool_decide (a = b).

(** [parts[-1]] for a non-empty list (the caller guards the length). *)
Definition last_part (parts : list string) : string := List.last parts EmptyString.

(** [parts[1:-1]] *)
Definition interior (parts : list string) : list string :=
  List.removelast (List.tl parts).

(** ["".join([p[0].lower() for p in parts if p])] *)
Fixpoint initials (parts : list string) : string :=
  match parts with
  | [] => EmptyString
  | EmptyString :: rest => initials rest
  | String c _ :: rest => String (lower_char c) (initials rest)
  end.

End PyStr.

(* ===================================================================== *)
(** ** [difflib.SequenceMatcher(None, a, b).ratio()] *)
(* ===================================================================== *)

(** The matcher is built with [isjunk = None] and the default
    [autojunk = True]: no element of [b] is junk, and when [b] has at
    least 200 elements those occurring more than [len(b) // 100 + 1] times
    are "popular" and are purged from [b2j]. *)

Module Difflib.

(** The positions of [c] in [b], counted from [j], in increasing order. *)
Fixpoint indices_from (j : nat) (b : list ascii) (c : ascii) : list nat :=
  match b with
  | [] => []
  | x :: b' =>
      if ascii_dec x c then j :: indices_from (S j) b' c
      else indices_from (S j) b' c
  end.

Definition popular (b : list ascii) (c : ascii) : bool :=
  ((200 <=? length b) &&
   (length b / 100 + 1 <? length (indices_from 0 b c)))%nat.

(** [b2j.get(c, [])] after [__chain_b]. *)
Definition b2j (b : list ascii) (c : ascii) : list nat :=
  if popular b c then [] else indices_from 0 b c.

(** [j2len.get(j-1, 0)]: the key [-1] is never present. *)
Definition j2len_get (j2len : gmap nat nat) (j : nat) : nat :=
  match j with
  | O => O
  | S j' => default O (j2len !! j')
  end.

(** A match [(i, j, k)]: [a[i:i+k] == b[j:j+k]]. *)
Definition Match : Type := (nat * nat * nat)%type.

(** The inner loop of [find_longest_match], over [j in b2j[a[i]]]. *)
Fixpoint scan_row (i blo bhi : nat) (j2len : gmap nat nat) (js : list nat)
    (newj2len : gmap nat nat) (best : Match) : gmap nat nat * Match :=
  match js with
  | [] => (newj2len, best)
  | j :: js' =>
      if (j <? blo)%nat then scan_row i blo bhi j2len js' newj2len best
      else if (bhi <=? j)%nat then (newj2len, best)
      else
        let k := (j2len_get j2len j + 1)%nat in
        let '(_, _, bestsize) := best in
        scan_row i blo bhi j2len js' (<[j := k]> newj2len)
          (if (bestsize <? k)%nat then ((i + 1 - k)%nat, (j + 1 - k)%nat, k)
           else best)
  end.

(** The outer loop, over [i in range(alo, ahi)]; [rows] is that range.
    [a[i]] exists because every call has [ahi <= len(a)]. *)
Fixpoint scan_rows (a b : list ascii) (blo bhi : nat) (rows : list nat)
    (j2len : gmap nat nat) (best : Match) : Match :=
  match rows with
  | [] => best
  | i :: rows' =>
      match nth_error a i with
      | Some c =>
          let '(newj2len, best') :=
            scan_row i blo bhi j2len (b2j b c) ∅ best in
          scan_rows a b blo bhi rows' newj2len best'
      | None => best
      end
  end.

(** [while besti > alo and bestj > blo and a[besti-1] == b[bestj-1]] *)
Fixpoint extend_back (a b : list ascii) (alo blo besti bestj bestsize : nat)
    {struct besti} : Match :=
  match besti, bestj with
  | S i', S j' =>
      if (alo <? besti)%nat && (blo <? bestj)%nat then
        match nth_error a i', nth_error b j' with
        | Some x, Some y =>
            if ascii_dec x y
            then extend_back a b alo blo i' j' (S bestsize)
            else (besti, bestj, bestsize)
        | _, _ => (besti, bestj, bestsize)
        end
      else (besti, bestj, bestsize)
  | _, _ => (besti, bestj, bestsize)
  end.

(** [while besti+bestsize < ahi and bestj+bestsize < bhi and
    a[besti+bestsize] == b[bestj+bestsize]]; at most [n] rounds. *)
Fixpoint extend_fwd (n : nat) (a b : list ascii) (ahi bhi besti bestj bestsize : nat)
    : Match :=
  match n with
  | O => (besti, bestj, bestsize)
  | S n' =>
      if (besti + bestsize <? ahi)%nat && (bestj + bestsize <? bhi)%nat then
        match nth_error a (besti + bestsize), nth_error b (bestj + bestsize) with
        | Some x, Some y =>
            if ascii_dec x y
            then extend_fwd n' a b ahi bhi besti bestj (S bestsize)
            else (besti, bestj, bestsize)
        | _, _ => (besti, bestj, bestsize)
        end
      else (besti, bestj, bestsize)
  end.

(** [find_longest_match(alo, ahi, blo, bhi)].  The two closing loops of
    the Python function only absorb junk elements and never run here. *)
Definition find_longest_match (a b : list ascii) (alo ahi blo bhi : nat) : Match :=
  let '(besti, bestj, bestsize) :=
    scan_rows a b blo bhi (List.seq alo (ahi - alo)) ∅ (alo, blo, O) in
  let '(besti, bestj, bestsize) :=
    extend_back a b alo blo besti bestj bestsize in
  extend_fwd (ahi - (besti + bestsize)) a b ahi bhi besti bestj bestsize.

(** The work list of [get_matching_blocks], unfolded into a recursion:
    the block found in a window, then those of the window to its left
    and those of the window to its right.  [ratio] only adds the sizes
    up, which the later sort and the merge of adjacent blocks preserve. *)
Fixpoint blocks (fuel : nat) (a b : list ascii) (alo ahi blo bhi : nat)
    : list Match :=
  match fuel with
  | O => []
  | S fuel' =>
      let '(i, j, k) := find_longest_match a b alo ahi blo bhi in
      if (k =? 0)%nat then []
      else
        (((i, j, k) : Match)
          :: (if (alo <? i)%nat && (blo <? j)%nat
              then blocks fuel' a b alo i blo j else []))
        ++ (if (i + k <? ahi)%nat && (j + k <? bhi)%nat
            then blocks fuel' a b (i + k)%nat ahi (j + k)%nat bhi else [])
  end.

Definition get_matching_blocks (a b : list ascii) : list Match :=
  blocks (S (length a)) a b 0 (length a) 0 (length b).

(** [sum(triple[-1] for triple in self.get_matching_blocks())] *)
Definition matches (a b : list ascii) : nat :=
  list_sum (map (fun t : Match => snd t) (get_matching_blocks a b)).

(** [_calculate_ratio(matches, length)] *)
Definition calculate_ratio (m length : nat) : Q :=
  match length with
  | O => 1
  | S _ => Z.of_nat (2 * m) # Pos.of_nat length
  end.

(** [SequenceMatcher(None, a, b).ratio()] *)
Definition ratio (a b : string) : Q :=
  let la := list_ascii_of_string a in
  let lb := list_ascii_of_string b in
  calculate_ratio (matches la lb) (length la + length lb).

End Difflib.

(* ===================================================================== *)
(** ** The workspace manager ([notion_workspace_manager.py]) *)
(* ===================================================================== *)

Local Open Scope Q_scope.

(** A user object of the directory (an entry of [notion_users.json]). *)
Record user : Type := mkUser {
  user_id : string;
  user_name : string;
  user_email : string;
  user_type : string;
  user_avatar_url : option string
}.

(** The two attributes of [NotionWorkspaceManager] that resolution reads. *)
Record manager : Type := mkManager {
  workspace_users : list user;
  user_name_mapping : gmap string string
}.

(** [x < y] and [x <= y] on scores, as booleans. *)
Definition Qltb (x y : Q) : bool :=
  match x ?= y with Lt => true | _ => false end.
Definition Qleb (x y : Q) : bool := Qle_bool x y.

(** [f"{parts[0].lower()} {parts[-1].lower()}"] *)
Definition first_last_key (parts : list string) : string :=
  (PyStr.lower (List.hd EmptyString parts) ++ " "
     ++ PyStr.lower (PyStr.last_part parts))%string.

(** The body of the loop of [_build_name_mapping] for one user: the
    assignments [self.user_name_mapping[key] = user["id"]], in order. *)
Definition register_user (mapping : gmap string string) (u : user)
    : gmap string string :=
  let name := PyStr.strip (user_name u) in
  if PyStr.truthy name then
    let m1 := <[PyStr.lower name := user_id u]> mapping in
    let parts := PyStr.split name in
    match parts with
    | [] => m1
    | p0 :: _ =>
        let m2 := <[PyStr.lower p0 := user_id u]> m1 in
        let m3 :=
          if (1 <? length parts)%nat
          then <[PyStr.lower (PyStr.last_part parts) := user_id u]> m2
          else m2 in
        let m4 :=
          fold_left
            (fun m part =>
               if PyStr.truthy part then <[PyStr.lower part := user_id u]> m
               else m)
            (PyStr.interior parts) m3 in
        if (2 <=? length parts)%nat then
          <[PyStr.initials parts := user_id u]>
            (<[first_last_key parts := user_id u]> m4)
        else m4
    end
  else mapping.

(** [_build_name_mapping]: nothing happens for an empty (or unset) list,
    otherwise the users are registered in the order of the list. *)
Definition build_name_mapping (users : list user) (mapping : gmap string string)
    : gmap string string :=
  match users with
  | [] => mapping
  | _ => fold_left register_user users mapping
  end.

(** [__init__] followed by a successful load in [get_workspace_users]:
    the mapping starts as [{}] and is built once from the loaded list. *)
Definition load (users : list user) : manager :=
  {| workspace_users := users;
     user_name_mapping := build_name_mapping users ∅ |}.

(** [max(scores)] for a list whose first element is [x]. *)
Definition py_max (x : Q) (rest : list Q) : Q :=
  fold_left (fun best y => if Qltb best y then y else best) rest x.

(** The list [scores] that [find_user_by_name] collects for one user;
    [user_name] is the stripped name.  The whole-string ratio is always
    its first element. *)
Definition match_scores (search_lower user_name : string) : Q * list Q :=
  let full_score := Difflib.ratio search_lower (PyStr.lower user_name) in
  let parts := PyStr.split user_name in
  (full_score,
   (if PyStr.contains (PyStr.lower user_name) search_lower
       || PyStr.contains search_lower (PyStr.lower user_name)
    then [0.8] else [])
   ++ (match parts with
       | p0 :: _ => if PyStr.eqb search_lower (PyStr.lower p0) then [0.95] else []
       | [] => []
       end)
   ++ (if (1 <? length parts)%nat
          && PyStr.eqb search_lower (PyStr.lower (PyStr.last_part parts))
       then [0.9] else [])
   ++ flat_map
        (fun part => if PyStr.eqb search_lower (PyStr.lower part) then [0.85] else [])
        (PyStr.interior parts)
   ++ (if PyStr.eqb search_lower (PyStr.initials parts) then [0.9] else [])).

(** [score = max(scores) if scores else 0.0] *)
Definition match_score (search_lower user_name : string) : Q :=
  let '(full_score, rest) := match_scores search_lower user_name in
  py_max full_score rest.

(** One round of the fuzzy loop on the pair [(best_match, best_score)].
    The list [matches] of the source is only counted for a log line. *)
Definition fuzzy_step (search_lower : string) (st : option user * Q) (u : user)
    : option user * Q :=
  let user_name := PyStr.strip (user_name u) in
  if negb (PyStr.truthy user_name) then st
  else
    let score := match_score search_lower user_name in
    if Qleb 0.5 score then
      if Qltb (snd st) score then (Some u, score) else st
    else st.

Definition fuzzy_loop (search_lower : string) (users : list user)
    : option user * Q :=
  fold_left (fuzzy_step search_lower) users (None, 0).

(** Step 2 of [find_user_by_name]. *)
Definition fuzzy_match (search_lower : string) (users : list user) : option user :=
  match fuzzy_loop search_lower users with
  | (Some u, best_score) => if Qleb 0.6 best_score then Some u else None
  | (None, _) => None
  end.

(** [next((u for u in users if u["id"] == user_id), None)] *)
Definition user_with_id (users : list user) (uid : string) : option user :=
  List.find (fun u => PyStr.eqb (user_id u) uid) users.

(** [find_user_by_name(search_name)]; [None] is the returned [None]. *)
Definition find_user_by_name (self : manager) (search_name : string) : option user :=
  if negb (PyStr.truthy search_name)
     || match workspace_users self with [] => true | _ => false end
  then None
  else
    let search_lower := PyStr.lower (PyStr.strip search_name) in
    match user_name_mapping self !! search_lower with
    | Some uid => user_with_id (workspace_users self) uid
    | None => fuzzy_match search_lower (workspace_users self)
    end.

(** [get_user_id_by_name(name)] *)
Definition get_user_id_by_name (self : manager) (name : string) : option string :=
  match find_user_by_name self name with
  | Some u => Some (user_id u)
  | None => None
  end.

(** An entry of the list [get_name_suggestions] returns:
    [{"user": user, "score": score, "name": user_name}]. *)
Record suggestion : Type := mkSuggestion {
  sug_user : user;
  sug_score : Q;
  sug_name : string
}.

(** The additive relevance score of [get_name_suggestions] for one user;
    [user_name] is the stripped name. *)
Definition suggestion_score (partial_lower user_name : string) : Q :=
  let score := 0 in
  let score :=
    if PyStr.startswith (PyStr.lower user_name) partial_lower
    then score + 0.8 else score in
  let score :=
    if PyStr.contains (PyStr.lower user_name) partial_lower
    then score + 0.6 else score in
  let parts := PyStr.split user_name in
  let score :=
    match parts with
    | p0 :: _ =>
        if PyStr.startswith (PyStr.lower p0) partial_lower
        then score + 0.9 else score
    | [] => score
    end in
  let score :=
    if (1 <? length parts)%nat
       && PyStr.startswith (PyStr.lower (PyStr.last_part parts)) partial_lower
    then score + 0.7 else score in
  let similarity := Difflib.ratio partial_lower (PyStr.lower user_name) in
  score + similarity * 0.5.

(** The loop of [get_name_suggestions]: the suggestions appended, in the
    order of the directory. *)
Definition candidates (partial_lower : string) (users : list user)
    : list suggestion :=
  flat_map
    (fun u =>
       let user_name := PyStr.strip (user_name u) in
       if negb (PyStr.truthy user_name) then []
       else
         let score := suggestion_score partial_lower user_name in
         if Qltb 0.3 score then [mkSuggestion u score user_name] else [])
    users.

(** [suggestions.sort(key=lambda x: x["score"], reverse=True)]: Python's
    sort is stable, also with [reverse=True], so the result is the one
    arrangement by decreasing score that keeps entries of equal score in
    their former order.  Insertion puts an entry before the first entry
    whose score is not greater. *)
Fixpoint insert_desc (x : suggestion) (l : list suggestion) : list suggestion :=
  match l with
  | [] => [x]
  | y :: l' =>
      if Qltb (sug_score x) (sug_score y) then y :: insert_desc x l'
      else x :: y :: l'
  end.

Fixpoint sort_desc (l : list suggestion) : list suggestion :=
  match l with
  | [] => []
  | x :: l' => insert_desc x (sort_desc l')
  end.

(** [l[:n]] for a Python [int] [n]: a negative bound counts from the end. *)
Definition slice_to {A : Type} (l : list A) (n : Z) : list A :=
  if (0 <=? n)%Z then firstn (Z.to_nat n) l
  else firstn (length l - Z.to_nat (- n)) l.

(** [get_name_suggestions(partial_name, limit)] *)
Definition get_name_suggestions (self : manager) (partial_name : string)
    (limit : Z) : list suggestion :=
  if negb (PyStr.truthy partial_name)
     || match workspace_users self with [] => true | _ => false end
  then []
  else
    let partial_lower := PyStr.lower (PyStr.strip partial_name) in
    slice_to (sort_desc (candidates partial_lower (workspace_users self))) limit.

(* ===================================================================== *)
(** ** The match endpoint ([routers/notion_workspace_api.py]) *)
(* ===================================================================== *)

(** [NameMatchResponse] *)
Record NameMatchResponse : Type := mkNameMatchResponse {
  found : bool;
  matched_user : option user;
  confidence_score : option Q;
  original_search : string
}.

(** [match_user_name(request)] with [request.name = name], for the
    manager the module holds. *)
Definition match_user_name (self : manager) (name : string) : NameMatchResponse :=
  match find_user_by_name self name with
  | Some u =>
      let search_lower := PyStr.lower name in
      let user_name_lower := PyStr.lower (user_name u) in
      {| found := true;
         matched_user := Some u;
         confidence_score := Some (Difflib.ratio search_lower user_name_lower);
         original_search := name |}
  | None =>
      {| found := false;
         matched_user := None;
         confidence_score := None;
         original_search := name |}
  end.

(* ===================================================================== *)
(** ** The paginated directory fetch ([fetch_notion_users_paginated.py]) *)
(* ===================================================================== *)

Module Fetch.

(** An element of ["results"] in a page of [GET /v1/users]. *)
Record raw_user : Type := mkRaw {
  raw_object : string;
  raw_type : string;
  raw_id : string;
  raw_name : string;
  raw_email : string;
  raw_avatar_url : option string
}.

(** What one [requests.get] yields: the status, the decoded body and the
    text of the body. *)
Record response : Type := mkResponse {
  status_code : nat;
  results : list raw_user;
  has_more : bool;
  next_cursor : option string;
  text : string
}.

(** The function returns a list, raises an exception of its own with a
    message, or passes on the exception of a request that failed. *)
Inductive outcome (A : Type) : Type :=
| Returned (x : A)
| Raised (msg : string)
| RequestFailed.
Arguments Returned {A} x.
Arguments Raised {A} msg.
Arguments RequestFailed {A}.

(** The filter of one page: person users only, as user objects. *)
Definition person_users (users : list raw_user) : list user :=
  flat_map
    (fun r =>
       if PyStr.eqb (raw_object r) "user" && PyStr.eqb (raw_type r) "person"
       then [mkUser (raw_id r) (raw_name r) (raw_email r) (raw_type r)
                    (raw_avatar_url r)]
       else [])
    users.

(** The [while has_more] loop.  The remote is given by the responses it
    sends to the successive requests; when it sends none the request
    itself raises. *)
Fixpoint fetch_loop (remote : list response) (all_users : list user)
    : outcome (list user) :=
  match remote with
  | [] => RequestFailed
  | r :: remote' =>
      if (status_code r =? 200)%nat then
        let all_users := all_users ++ person_users (results r) in
        if has_more r then fetch_loop remote' all_users
        else Returned all_users
      else Raised ("API request failed: " ++ text r)
  end.

(** [fetch_users_in_batches()], given the token of the environment. *)
Definition fetch_users_in_batches (notion_token : option string)
    (remote : list response) : outcome (list user) :=
  match notion_token with
  | None | Some EmptyString =>
      Raised "NOTION_INTEGRATION_TOKEN2 environment variable is required"
  | Some _ => fetch_loop remote []
  end.

(** A user dictionary as [verify_extraction] receives it, by the three
    keys the function reads; each of them may be missing.  Of "name" and
    "type" only the presence is read. *)
Record user_dict : Type := mkUserDict {
  ud_id : option string;
  ud_name : option string;
  ud_type : option string
}.

(** The dictionary [fetch_users_in_batches] builds for a user: every key
    is set. *)
Definition as_dict (u : user) : user_dict :=
  {| ud_id := Some (user_id u);
     ud_name := Some (user_name u);
     ud_type := Some (user_type u) |}.

Definition required_fields : list string := ["id"; "name"; "type"].

(** [field in user] for a required field. *)
Definition has_field (field : string) (user : user_dict) : bool :=
  if PyStr.eqb field "id" then bool_decide (is_Some (ud_id user))
  else if PyStr.eqb field "name" then bool_decide (is_Some (ud_name user))
  else if PyStr.eqb field "type" then bool_decide (is_Some (ud_type user))
  else false.

(** [verify_extraction(users)]: [False] for an empty list, for a user
    that lacks a required field, and for a repeated id.  [user["id"]] is
    read only once every user has passed the check of the fields. *)
Definition verify_extraction (users : list user_dict) : bool :=
  match users with
  | [] => false
  | _ =>
      if existsb
           (fun user =>
              existsb (fun field => negb (has_field field user)) required_fields)
           users
      then false
      else
        let user_ids := omap ud_id users in
        if negb (length user_ids =? size (list_to_set user_ids : gset string))%nat
        then false
        else true
  end.

End Fetch.

(* ===================================================================== *)
(** ** The per-member computations with their subscripts made explicit *)
(* ===================================================================== *)

(** The three loops index into [parts] and into the tokens ([parts[0]],
    [parts[-1]], [p[0]]) and call [max(scores)]; each of these raises on
    an empty sequence.  Here they are partial: [None] stands for the
    [IndexError] or [ValueError] Python would raise. *)

Module Checked.

(** [l[i]] for a Python [int] [i]. *)
Definition item {A : Type} (l : list A) (i : Z) : option A :=
  let n := Z.of_nat (length l) in
  if (0 <=? i)%Z then nth_error l (Z.to_nat i)
  else if (0 <=? n + i)%Z then nth_error l (Z.to_nat (n + i))
  else None.

(** [p[0]] for a string. *)
Definition char0 (p : string) : option ascii :=
  match p with
  | String c _ => Some c
  | EmptyString => None
  end.

(** [max(scores)] *)
Definition max_of (scores : list Q) : option Q :=
  match scores with
  | [] => None
  | x :: rest => Some (py_max x rest)
  end.

(** ["".join([p[0].lower() for p in parts if p])] *)
Fixpoint initials (parts : list string) : option string :=
  match parts with
  | [] => Some EmptyString
  | p :: rest =>
      if PyStr.truthy p then
        c ← char0 p; r ← initials rest; Some (String (PyStr.lower_char c) r)
      else initials rest
  end.

(** The body of the loop of [_build_name_mapping]. *)
Definition register_user (mapping : gmap string string) (u : user)
    : option (gmap string string) :=
  let name := PyStr.strip (user_name u) in
  if PyStr.truthy name then
    let m1 := <[PyStr.lower name := user_id u]> mapping in
    let parts := PyStr.split name in
    if match parts with [] => false | _ => true end then
      p0 ← item parts 0;
      let m2 := <[PyStr.lower p0 := user_id u]> m1 in
      m3 ← (if (1 <? length parts)%nat
            then pl ← item parts (-1); Some (<[PyStr.lower pl := user_id u]> m2)
            else Some m2);
      let m4 :=
        fold_left
          (fun m part =>
             if PyStr.truthy part then <[PyStr.lower part := user_id u]> m
             else m)
          (PyStr.interior parts) m3 in
      if (2 <=? length parts)%nat then
        p0 ← item parts 0;
        pl ← item parts (-1);
        let m5 :=
          <[(PyStr.lower p0 ++ " " ++ PyStr.lower pl)%string := user_id u]> m4 in
        ini ← initials parts;
        Some (<[ini := user_id u]> m5)
      else Some m4
    else Some m1
  else Some mapping.

(** [_build_name_mapping]: the first round that raises ends the loop. *)
Definition build_name_mapping (users : list user) (mapping : gmap string string)
    : option (gmap string string) :=
  fold_left (fun acc u => m ← acc; register_user m u) users (Some mapping).

(** The score of one member in the loop of [find_user_by_name]. *)
Definition match_score (search_lower user_name : string) : option Q :=
  let full_score := Difflib.ratio search_lower (PyStr.lower user_name) in
  let s1 :=
    if PyStr.contains (PyStr.lower user_name) search_lower
       || PyStr.contains search_lower (PyStr.lower user_name)
    then [0.8] else [] in
  let parts := PyStr.split user_name in
  s2 ← (if match parts with [] => false | _ => true end then
          p0 ← item parts 0;
          Some (if PyStr.eqb search_lower (PyStr.lower p0) then [0.95] else [])
        else Some []);
  s3 ← (if (1 <? length parts)%nat then
          pl ← item parts (-1);
          Some (if PyStr.eqb search_lower (PyStr.lower pl) then [0.9] else [])
        else Some []);
  let s4 :=
    flat_map
      (fun part => if PyStr.eqb search_lower (PyStr.lower part) then [0.85] else [])
      (PyStr.interior parts) in
  ini ← initials parts;
  let s5 := if PyStr.eqb search_lower ini then [0.9] else [] in
  let scores := full_score :: s1 ++ s2 ++ s3 ++ s4 ++ s5 in
  match scores with
  | [] => Some 0
  | _ => max_of scores
  end.

(** The score of one member in the loop of [get_name_suggestions]. *)
Definition suggestion_score (partial_lower user_name : string) : option Q :=
  let score := 0 in
  let score :=
    if PyStr.startswith (PyStr.lower user_name) partial_lower
    then score + 0.8 else score in
  let score :=
    if PyStr.contains (PyStr.lower user_name) partial_lower
    then score + 0.6 else score in
  let parts := PyStr.split user_name in
  score ← (if match parts with [] => false | _ => true end then
             p0 ← item parts 0;
             Some (if PyStr.startswith (PyStr.lower p0) partial_lower
                   then score + 0.9 else score)
           else Some score);
  score ← (if (1 <? length parts)%nat then
             pl ← item parts (-1);
             Some (if PyStr.startswith (PyStr.lower pl) partial_lower
                   then score + 0.7 else score)
           else Some score);
  let similarity := Difflib.ratio partial_lower (PyStr.lower user_name) in
  Some (score + similarity * 0.5).

End Checked.

(* ===================================================================== *)
(** ** Vocabulary of the statements *)
(* ===================================================================== *)

(** The keys [register_user] assigns for one user, in the order of the
    assignments. *)
Definition keys_of (u : user) : list string :=
  let name := PyStr.strip (user_name u) in
  if PyStr.truthy name then
    let parts := PyStr.split name in
    PyStr.lower name ::
    match parts with
    | [] => []
    | p0 :: _ =>
        PyStr.lower p0
        :: (if (1 <? length parts)%nat
            then [PyStr.lower (PyStr.last_part parts)] else [])
        ++ map PyStr.lower (List.filter PyStr.truthy (PyStr.interior parts))
        ++ (if (2 <=? length parts)%nat
            then [first_last_key parts; PyStr.initials parts] else [])
    end
  else [].

(** [registers k u]: the loop body assigns key [k] for user [u]. *)
Definition registers (k : string) (u : user) : bool :=
  bool_decide (k ∈ keys_of u).

(** A user the index builder does not skip. *)
Definition named (u : user) : bool := PyStr.truthy (PyStr.strip (user_name u)).

(** The tokens of a user's name, as the builder sees them. *)
Definition tokens (u : user) : list string := PyStr.split (PyStr.strip (user_name u)).

(** The normalised form of a query or of a name. *)
Definition normalize (s : string) : string := PyStr.lower (PyStr.strip s).

(** The best heuristic score of a user for a query, as the fuzzy loop
    computes it. *)
Definition score_of (q : string) (u : user) : Q :=
  match_score (normalize q) (PyStr.strip (user_name u)).

(** What the pair [(best_match, best_score)] of the fuzzy loop records
    about the users [seen] so far, for the normalised query [sl]. *)
Definition best_inv (sl : string) (seen : list user) (st : option user * Q) : Prop :=
  let sc := fun u => match_score sl (PyStr.strip (user_name u)) in
  match st with
  | (None, bs) =>
      bs = 0 /\ forall u, In u seen -> named u = true -> sc u < 0.5
  | (Some m, bs) =>
      bs = sc m /\ named m = true /\ 0.5 <= sc m /\
      exists l1 l2, seen = l1 ++ m :: l2
        /\ (forall u, In u l1 -> named u = true -> sc u < sc m)
        /\ (forall u, In u l2 -> named u = true -> sc u <= sc m)
  end.

(** A match that lies inside the window [a[alo:ahi]], [b[blo:bhi]]. *)
Definition inside (alo ahi blo bhi : nat) (x : Difflib.Match) : Prop :=
  let '(i, j, k) := x in
  (alo <= i /\ i + k <= ahi /\ blo <= j /\ j + k <= bhi)%nat.

(** The run lengths [j2len] holds when row [i] of a window starts: a run
    ending in the previous row, at column [j], begins inside the window. *)
Definition runs_fit (alo blo i : nat) (j2len : gmap nat nat) : Prop :=
  forall j k, j2len !! j = Some k -> (k <= i - alo /\ k <= j + 1 - blo)%nat.

(** The sum of the sizes of a list of matches. *)
Definition total_size (l : list Difflib.Match) : nat :=
  list_sum (map (fun t : Difflib.Match => snd t) l).

(** The additive relevance score of a user for a partial name. *)
Definition relevance (partial : string) (u : user) : Q :=
  suggestion_score (normalize partial) (PyStr.strip (user_name u)).

(** [descending l]: every entry scores at least as much as all later ones. *)
Definition descending (l : list suggestion) : Prop :=
  StronglySorted (fun x y => sug_score y <= sug_score x) l.

(** The entries of a list, or the users of a directory, with score [q]. *)
Definition scoring (q : Q) (s : suggestion) : bool := Qeq_bool (sug_score s) q.
Definition relevant_with (partial : string) (q : Q) (u : user) : bool :=
  named u && Qltb 0.3 (relevance partial u) && Qeq_bool (relevance partial u) q.

(** The directory of the worked example, and three more users. *)
Definition dinesh : user := mkUser "u1" "Dinesh Kumar" "dinesh@example.com" "person" None.
Definition divya : user := mkUser "u2" "Divya Kumar" "divya@example.com" "person" None.
Definition kumar : user := mkUser "u0" "Kumar" "kumar@example.com" "person" None.
Definition madonna : user := mkUser "u3" "Madonna" "madonna@example.com" "person" None.
Definition dinesh_twin : user := mkUser "u5" "Dinesh Kumar" "dk@example.com" "person" None.
Definition nameless : user := mkUser "u4" "   " "nobody@example.com" "person" None.

(** Two pages of a remote that overlap in the user "a". *)
Definition page1 : Fetch.response :=
  Fetch.mkResponse 200
    [Fetch.mkRaw "user" "person" "a" "Asha Rao" "asha@example.com" None;
     Fetch.mkRaw "user" "bot" "b" "Build Bot" "" None]
    true (Some "cursor-1") "".
Definition page2 : Fetch.response :=
  Fetch.mkResponse 200
    [Fetch.mkRaw "user" "person" "a" "Asha Rao" "asha@example.com" None;
     Fetch.mkRaw "user" "person" "c" "Chandra Bose" "chandra@example.com" None]
    false None "".

(* ===================================================================== *)
(** ** Loading the directory ([get_workspace_users], [__init__]) *)
(* ===================================================================== *)

Module Loader.

(** What [open(file_path)] followed by [json.load(f)] gives: the decoded
    list of users, or one of the two exceptions the loop catches
    ([FileNotFoundError], [json.JSONDecodeError]). *)
Inductive file_read : Type :=
| NotReadable
| Decoded (users : list user).

(** What [requests.get("https://api.notion.com/v1/users")] gives: an
    exception, or a response with its status and its ["results"]. *)
Inductive api_reply : Type :=
| RequestRaised
| Replied (status_code : nat) (results : list Fetch.raw_user).

(** The attributes of the manager that loading reads and writes;
    [workspace_users] starts as [None]. *)
Record state : Type := mkState {
  use_api : bool;
  workspace_users : option (list user);
  user_name_mapping : gmap string string
}.

Definition possible_paths : list string :=
  ["notion_users.json";
   "../notion_users.json";
   "../../notion_users.json";
   "/Users/anupamar/Documents/open-webui-f/notion_users.json"].

(** The loop over [possible_paths]: the first file that can be read and
    decoded. *)
Fixpoint first_readable (fs : string -> file_read) (paths : list string)
    : option (list user) :=
  match paths with
  | [] => None
  | file_path :: rest =>
      match fs file_path with
      | Decoded users => Some users
      | NotReadable => first_readable fs rest
      end
  end.

(** The filter of the API fallback: person users, without avatar. *)
Definition api_person_users (users : list Fetch.raw_user) : list user :=
  flat_map
    (fun r =>
       if PyStr.eqb (Fetch.raw_object r) "user"
          && PyStr.eqb (Fetch.raw_type r) "person"
       then [mkUser (Fetch.raw_id r) (Fetch.raw_name r) (Fetch.raw_email r)
                    (Fetch.raw_type r) None]
       else [])
    users.

(** [self.workspace_users = users; self._build_name_mapping()] *)
Definition store (self : state) (users : list user) : state :=
  {| use_api := use_api self;
     workspace_users := Some users;
     user_name_mapping := build_name_mapping users (user_name_mapping self) |}.

(** [self.workspace_users = []] *)
Definition store_nothing (self : state) : state :=
  {| use_api := use_api self;
     workspace_users := Some [];
     user_name_mapping := user_name_mapping self |}.

(** [get_workspace_users()]: the new state and the returned list.  Every
    exception of the API branch is caught and leads to the empty list. *)
Definition get_workspace_users (fs : string -> file_read) (api : api_reply)
    (self : state) : state * list user :=
  match workspace_users self with
  | Some users => (self, users)
  | None =>
      match first_readable fs possible_paths with
      | Some users => (store self users, users)
      | None =>
          if use_api self then
            match api with
            | Replied status_code results =>
                if (status_code =? 200)%nat
                then (store self (api_person_users results),
                      api_person_users results)
                else (store_nothing self, [])
            | RequestRaised => (store_nothing self, [])
            end
          else (store_nothing self, [])
      end
  end.

(** [NotionWorkspaceManager()]: [__init__] sets [workspace_users = None]
    and [user_name_mapping = {}] and calls [get_workspace_users]. *)
Definition init (use_api : bool) (fs : string -> file_read) (api : api_reply)
    : state :=
  fst (get_workspace_users fs api
         {| use_api := use_api; workspace_users := None;
            user_name_mapping := ∅ |}).

(** The manager as the resolution functions see it: they only test
    [workspace_users] for truth, so [None] and [[]] are alike. *)
Definition view (self : state) : manager :=
  mkManager (default [] (workspace_users self)) (user_name_mapping self).

End Loader.

(* ===================================================================== *)
(** ** People and link properties of [create_database_entry] *)
(* ===================================================================== *)

Module Entry.

(** The value stored under "Request Owner" or "Created By". *)
Inductive person_property : Type :=
| People (id : string)
| RichText (content : string).

(** [self.get_user_id_by_name(name) if name else None] *)
Definition user_id_for (self : manager) (name : string) : option string :=
  if PyStr.truthy name then get_user_id_by_name self name else None.

(** [bool(user_id)] for the optional id. *)
Definition found_id (user_id : option string) : option string :=
  match user_id with
  | Some i => if PyStr.truthy i then Some i else None
  | None => None
  end.

(** [properties["Request Owner"]] for [form_data.get("owner", "")]. *)
Definition request_owner (self : manager) (owner_name : string) : person_property :=
  match found_id (user_id_for self owner_name) with
  | Some i => People i
  | None => RichText owner_name
  end.

(** [properties["Created By"]], when set, for
    [form_data.get("created_by", "")]. *)
Definition created_by (self : manager) (created_by_name : string)
    : option person_property :=
  match found_id (user_id_for self created_by_name) with
  | Some i => Some (People i)
  | None =>
      if PyStr.truthy created_by_name then Some (RichText created_by_name)
      else None
  end.

(** The url of [properties["Reference Link"]], when set, for
    [form_data.get("reference_link")]. *)
Definition reference_link (ref_link : option string) : option string :=
  match ref_link with
  | Some s => if PyStr.truthy s then Some (PyStr.strip s) else None
  | None => None
  end.

End Entry.

(* ===================================================================== *)
(** ** The feature-request router ([routers/notion.py]) *)
(* ===================================================================== *)

Module Router.

(** A dict literal, or [dict.update] with one: the pairs are assigned in
    order. *)
Definition update (m : gmap string string) (pairs : list (string * string))
    : gmap string string :=
  fold_left (fun m' kv => <[fst kv := snd kv]> m') pairs m.

(** The fallback mapping, written three times in the source. *)
Definition default_priority_map : gmap string string :=
  update ∅
    [("0 - Critical", "Critical"); ("1 - High", "High");
     ("2 - Medium", "Medium"); ("3 - Low", "Low");
     ("0", "Critical"); ("1", "High"); ("2", "Medium"); ("3", "Low");
     ("critical", "Critical"); ("high", "High"); ("medium", "Medium");
     ("low", "Low");
     ("Critical", "Critical"); ("High", "High"); ("Medium", "Medium");
     ("Low", "Low")].

(** [database_info["properties"]["Priority"]]: [select_options] is
    [priority_prop["select"]["options"]] when both keys are there, each
    option given by its ["name"] when it has one. *)
Record priority_prop : Type := mkPriorityProp {
  select_options : option (list (option string))
}.

(** What [requests.get(".../v1/databases/<id>")] gives: an exception, or a
    response with its status and, when the decoded body has "properties"
    with a "Priority" in it, that property. *)
Inductive schema_reply : Type :=
| SchemaRaised
| SchemaReplied (status_code : nat) (priority : option priority_prop).

(** [[option["name"] for option in ...]]; [None] is the [KeyError]. *)
Fixpoint option_names (options : list (option string)) : option (list string) :=
  match options with
  | [] => Some []
  | Some n :: rest => ns ← option_names rest; Some (n :: ns)
  | None :: _ => None
  end.

(** [actual_priority_options]; [None] when reading it raises. *)
Definition actual_priority_options (priority : option priority_prop)
    : option (list string) :=
  match priority with
  | Some prop =>
      match select_options prop with
      | Some options => option_names options
      | None => Some []
      end
  | None => Some []
  end.

(** [x in actual_priority_options] *)
Definition has_option (x : string) (options : list string) : bool :=
  bool_decide (x ∈ options).

(** The mapping built from the options the database really has. *)
Definition options_priority_map (options : list string) : gmap string string :=
  let m := ∅ in
  let m :=
    if has_option "Critical" options
    then update m [("0 - Critical", "Critical"); ("0", "Critical");
                   ("critical", "Critical"); ("Critical", "Critical")]
    else m in
  let m :=
    if has_option "High" options
    then update m [("1 - High", "High"); ("1", "High"); ("high", "High");
                   ("High", "High")]
    else m in
  let m :=
    if has_option "Medium" options
    then update m [("2 - Medium", "Medium"); ("2", "Medium");
                   ("medium", "Medium"); ("Medium", "Medium")]
    else m in
  if has_option "Low" options
  then update m [("3 - Low", "Low"); ("3", "Low"); ("low", "Low");
                 ("Low", "Low")]
  else m.

(** [priority_map] as [create_feature_request] builds it; any exception
    while it is built selects the fallback. *)
Definition priority_map (reply : schema_reply) : gmap string string :=
  match reply with
  | SchemaReplied status_code priority =>
      if (status_code =? 200)%nat then
        match actual_priority_options priority with
        | Some [] => default_priority_map
        | Some options => options_priority_map options
        | None => default_priority_map
        end
      else default_priority_map
  | SchemaRaised => default_priority_map
  end.

(** [mapped_priority = priority_map.get(priority_value, "Medium")] *)
Definition mapped_priority (reply : schema_reply) (priority_value : string)
    : string :=
  default "Medium" (priority_map reply !! priority_value).

(** [form_data_dict["reference_link"]]: a list of strings, a string, or
    anything else ([null], a number, ...). *)
Inductive reference_input : Type :=
| RefList (l : list string)
| RefStr (s : string)
| RefOther.

(** [ref_link_val] *)
Definition ref_link_val (ref_link : reference_input) : option string :=
  match ref_link with
  | RefList l =>
      match l with
      | x :: _ => if PyStr.truthy (PyStr.strip x) then Some x else None
      | [] => None
      end
  | RefStr s =>
      if PyStr.truthy (PyStr.strip s) then Some (PyStr.strip s) else None
  | RefOther => None
  end.

(** [all_files]: the uploaded files, then the attachments zipped with
    their urls. *)
Definition all_files (uploaded_files : list (string * string))
    (attachments attachment_urls : list string) : list (string * string) :=
  uploaded_files ++ List.combine attachments attachment_urls.

(** A function of the router either returns or raises. *)
Inductive outcome (A : Type) : Type :=
| Returned (x : A)
| Raised (msg : string).
Arguments Returned {A} x.
Arguments Raised {A} msg.

(** [get_notion_user_id(name)] for the manager the module holds. *)
Definition get_notion_user_id (self : manager) (name : string) : outcome string :=
  match get_user_id_by_name self name with
  | Some i =>
      if PyStr.truthy i then Returned i
      else Raised ("Could not find Notion user id for " ++ name)
  | None => Raised ("Could not find Notion user id for " ++ name)
  end.

(** [f"{name} ({email})"] *)
Definition display (name email : string) : string :=
  (name ++ " (" ++ email ++ ")")%string.

(** The dict built for a matched user. *)
Record formatted_user : Type := mkFormattedUser {
  fu_id : string;
  fu_name : string;
  fu_email : string;
  fu_display : string
}.

(** The dict built for a suggestion. *)
Record formatted_suggestion : Type := mkFormattedSuggestion {
  fs_id : string;
  fs_name : string;
  fs_email : string;
  fs_score : Q;
  fs_display : string
}.

Definition format_suggestion (s : suggestion) : formatted_suggestion :=
  {| fs_id := user_id (sug_user s);
     fs_name := sug_name s;
     fs_email := user_email (sug_user s);
     fs_score := sug_score s;
     fs_display := display (sug_name s) (user_email (sug_user s)) |}.

(** [UserMatchResponse] *)
Record UserMatchResponse : Type := mkUserMatchResponse {
  found : bool;
  user_found : option formatted_user;
  confidence_score : option Q;
  suggestions : option (list formatted_suggestion)
}.

(** [match_user_name(request)] of [/users/match], with
    [request.name = name]. *)
Definition match_user_name (self : manager) (name : string) : UserMatchResponse :=
  match find_user_by_name self name with
  | Some matched_user =>
      let search_lower := PyStr.lower name in
      let user_name_lower := PyStr.lower (user_name matched_user) in
      {| found := true;
         user_found :=
           Some {| fu_id := user_id matched_user;
                   fu_name := user_name matched_user;
                   fu_email := user_email matched_user;
                   fu_display :=
                     display (user_name matched_user) (user_email matched_user) |};
         confidence_score := Some (Difflib.ratio search_lower user_name_lower);
         suggestions := None |}
  | None =>
      {| found := false;
         user_found := None;
         confidence_score := None;
         suggestions :=
           Some (map format_suggestion (get_name_suggestions self name 3)) |}
  end.

End Router.

(* ===================================================================== *)
(** ** More vocabulary *)
(* ===================================================================== *)

(** A string without any white-space character. *)
Fixpoint no_space (s : string) : bool :=
  match s with
  | EmptyString => true
  | String c s' => negb (PyStr.is_space c) && no_space s'
  end.

(** A string that neither begins nor ends with white space. *)
Definition trimmed (s : string) : Prop := PyStr.strip s = s.

(** The four priority names of the router. *)
Definition priority_names : list string := ["Critical"; "High"; "Medium"; "Low"].

(** The value a priority mapping gives to a label, when the names
    enabled in it are told by the four flags. *)
Definition priority_class (critical high medium low : bool) (k : string)
    : option string :=
  if bool_decide (k ∈ ["0 - Critical"; "0"; "critical"; "Critical"])
  then (if critical then Some "Critical" else None)
  else if bool_decide (k ∈ ["1 - High"; "1"; "high"; "High"])
  then (if high then Some "High" else None)
  else if bool_decide (k ∈ ["2 - Medium"; "2"; "medium"; "Medium"])
  then (if medium then Some "Medium" else None)
  else if bool_decide (k ∈ ["3 - Low"; "3"; "low"; "Low"])
  then (if low then Some "Low" else None)
  else None.

(** A schema answer with status 200 whose priority options are [names]. *)
Definition schema_with (names : list string) : Router.schema_reply :=
  Router.SchemaReplied 200
    (Some (Router.mkPriorityProp (Some (map Some names)))).

(** The test of the filter of a page: a person user. *)
Definition is_person (r : Fetch.raw_user) : bool :=
  PyStr.eqb (Fetch.raw_object r) "user" && PyStr.eqb (Fetch.raw_type r) "person".

(** A dictionary with the three required fields. *)
Definition complete (d : Fetch.user_dict) : Prop :=
  is_Some (Fetch.ud_id d) /\ is_Some (Fetch.ud_name d) /\ is_Some (Fetch.ud_type d).

(** No entry without a name carries the id of a named member. *)
Definition no_nameless_twin (users : list user) : Prop :=
  forall g u, In g users -> In u users ->
              named g = false -> named u = true -> user_id g <> user_id u.

(** An entry without a name that carries the id of [dinesh]. *)
Definition ghost : user := mkUser "u1" "  " "ghost@example.com" "person" None.

(** A file system in which exactly the file at [path] can be read. *)
Definition only_file (path : string) (users : list user) (p : string)
    : Loader.file_read :=
  if PyStr.eqb p path then Loader.Decoded users else Loader.NotReadable.

(** A file system without any readable users file. *)
Definition no_file (p : string) : Loader.file_read := Loader.NotReadable.

(* ===================================================================== *)
(** * Properties *)
(* ===================================================================== *)

(** ** Worked examples *)

Example split_example :
  PyStr.split "  Dinesh  Raj Kumar " = ["Dinesh"; "Raj"; "Kumar"].
Proof. reflexivity. Qed.

Example strip_example : PyStr.strip "  Divya Kumar  " = "Divya Kumar".
Proof. reflexivity. Qed.

Example ratio_example : Difflib.ratio "dines" "dinesh kumar" = 10 # 17.
Proof. vm_compute. reflexivity. Qed.

Example keys_example :
  keys_of dinesh = ["dinesh kumar"; "dinesh"; "kumar"; "dinesh kumar"; "dk"].
Proof. vm_compute. reflexivity. Qed.

Example resolve_first_token :
  get_user_id_by_name (load [dinesh; divya]) "Dinesh" = Some "u1".
Proof. vm_compute. reflexivity. Qed.

Example resolve_typo :
  get_user_id_by_name (load [dinesh; divya]) "Dines" = Some "u1".
Proof. vm_compute. reflexivity. Qed.

Example resolve_unknown :
  get_user_id_by_name (load [dinesh; divya]) "Zoe" = None.
Proof. vm_compute. reflexivity. Qed.

(** ** The index *)

Section Index.

Implicit Types (m : gmap string string) (u : user) (k : string).

(** Assigning the same value to a list of keys. *)
Lemma lookup_assign_all (v : string) (keys : list string) m k :
  fold_left (fun m' key => <[key := v]> m') keys m !! k
  = if bool_decide (k ∈ keys) then Some v else m !! k.
Proof.
  revert m. induction keys as [|key keys IH]; intros m; cbn [fold_left].
  - rewrite bool_decide_eq_false_2; [done | apply not_elem_of_nil].
  - rewrite IH. destruct (decide (k = key)) as [->|Hne].
    + rewrite lookup_insert_eq.
      rewrite (bool_decide_eq_true_2 (key ∈ key :: keys)) by set_solver.
      by case_bool_decide.
    + rewrite lookup_insert_ne by done.
      rewrite (bool_decide_ext (k ∈ key :: keys) (k ∈ keys))
        by (rewrite elem_of_cons; tauto).
      reflexivity.
Qed.

Lemma register_user_assigns m u :
  register_user m u
  = fold_left (fun m' key => <[key := user_id u]> m') (keys_of u) m.
Proof.
  unfold register_user, keys_of.
  destruct (PyStr.truthy (PyStr.strip (user_name u))); [|done].
  destruct (PyStr.split (PyStr.strip (user_name u))) as [|p0 ps] eqn:Hparts; [done|].
  cbn [fold_left].
  set (parts := p0 :: ps).
  rewrite !fold_left_app.
  assert (Hint : forall l m0,
    fold_left (fun m' part =>
                 if PyStr.truthy part then <[PyStr.lower part := user_id u]> m'
                 else m') l m0
    = fold_left (fun m' key => <[key := user_id u]> m')
        (map PyStr.lower (List.filter PyStr.truthy l)) m0).
  { induction l as [|x l IH]; intros m0; simpl; [done|].
    destruct (PyStr.truthy x); simpl; apply IH. }
  rewrite <- Hint.
  destruct (1 <? length parts)%nat, (2 <=? length parts)%nat; reflexivity.
Qed.

(** What one round of the builder does to a lookup. *)
Lemma lookup_register_user m u k :
  register_user m u !! k
  = if registers k u then Some (user_id u) else m !! k.
Proof. rewrite register_user_assigns. apply lookup_assign_all. Qed.

Lemma build_name_mapping_fold (users : list user) m :
  build_name_mapping users m = fold_left register_user users m.
Proof. by destruct users. Qed.

Lemma build_name_mapping_app (l1 l2 : list user) m :
  build_name_mapping (l1 ++ l2) m
  = build_name_mapping l2 (build_name_mapping l1 m).
Proof. rewrite !build_name_mapping_fold. apply fold_left_app. Qed.

(** Users that do not register [k] leave its entry alone. *)
Lemma lookup_build_skip (l : list user) m k :
  Forall (fun u => registers k u = false) l ->
  build_name_mapping l m !! k = m !! k.
Proof.
  rewrite build_name_mapping_fold. revert m.
  induction l as [|u l IH]; intros m Hl; simpl; [done|].
  inversion Hl as [|? ? Hu Hl']; subst.
  rewrite IH by done. by rewrite lookup_register_user, Hu.
Qed.

(** The last user that registers a key owns it. *)
Lemma lookup_build_last (l1 l2 : list user) u m k :
  registers k u = true ->
  Forall (fun u' => registers k u' = false) l2 ->
  build_name_mapping (l1 ++ u :: l2) m !! k = Some (user_id u).
Proof.
  intros Hu Hl2.
  rewrite build_name_mapping_app.
  change (u :: l2) with ([u] ++ l2). rewrite build_name_mapping_app.
  rewrite lookup_build_skip by done.
  cbn. by rewrite lookup_register_user, Hu.
Qed.

(** Every entry of the index comes from a user of the list. *)
Lemma lookup_build_Some (l : list user) m k v :
  build_name_mapping l m !! k = Some v ->
  m !! k = Some v \/ exists u, In u l /\ registers k u = true /\ v = user_id u.
Proof.
  rewrite build_name_mapping_fold. revert m.
  induction l as [|u l IH]; intros m; simpl; [by left|].
  intros H. apply IH in H as [H|(u' & Hin & Hk & ->)].
  - rewrite lookup_register_user in H.
    destruct (registers k u) eqn:Hk.
    + right. exists u. split; [by left|]. split; [done|]. congruence.
    + by left.
  - right. exists u'. split; [by right|done].
Qed.

End Index.

(** ** Exact resolution *)

Section Exact.

Lemma truthy_strip (s : string) :
  PyStr.truthy (PyStr.strip s) = true -> PyStr.truthy s = true.
Proof. destruct s; [discriminate | reflexivity]. Qed.

Lemma registers_full_name (u : user) :
  named u = true -> registers (normalize (user_name u)) u = true.
Proof.
  unfold named, registers, keys_of, normalize. intros ->.
  apply bool_decide_eq_true_2. apply list_elem_of_here.
Qed.

Lemma tokens_named (u : user) :
  (1 <= length (tokens u))%nat -> named u = true.
Proof.
  unfold tokens, named.
  destruct (PyStr.strip (user_name u)); cbn; [lia | reflexivity].
Qed.

Lemma registers_initials (u : user) :
  (2 <= length (tokens u))%nat ->
  registers (PyStr.initials (tokens u)) u = true.
Proof.
  intros Hlen. pose proof (tokens_named u ltac:(lia)) as Hn.
  unfold registers, keys_of. unfold named in Hn. rewrite Hn.
  fold (tokens u). destruct (tokens u) as [|p0 ps] eqn:Ht; [cbn in Hlen; lia|].
  apply bool_decide_eq_true_2.
  apply Nat.leb_le in Hlen. rewrite Hlen.
  rewrite !elem_of_cons, !elem_of_app, !elem_of_cons. tauto.
Qed.

Lemma user_with_id_In (users : list user) (u : user) :
  In u users ->
  exists u', user_with_id users (user_id u) = Some u' /\ user_id u' = user_id u.
Proof.
  intros Hin. unfold user_with_id.
  destruct (List.find _ users) as [u'|] eqn:Hf.
  - exists u'. split; [done|]. apply find_some in Hf as [_ Hf].
    by apply bool_decide_eq_true_1 in Hf.
  - exfalso. eapply find_none in Hf; [|exact Hin].
    cbn in Hf. unfold PyStr.eqb in Hf.
    by rewrite bool_decide_eq_true_2 in Hf.
Qed.

(** An index hit for the normalised query settles the resolution. *)
Lemma resolve_exact (users : list user) (u : user) (q : string) :
  In u users ->
  PyStr.truthy q = true ->
  user_name_mapping (load users) !! normalize q = Some (user_id u) ->
  get_user_id_by_name (load users) q = Some (user_id u).
Proof.
  intros Hin Hq Hk. unfold get_user_id_by_name, find_user_by_name.
  rewrite Hq. cbn [negb orb workspace_users load].
  destruct users as [|u0 users']; [destruct Hin|].
  fold (normalize q). rewrite Hk.
  destruct (user_with_id_In _ _ Hin) as (u' & -> & ->). reflexivity.
Qed.

End Exact.

(** C1, as amended.  A member with a non-blank name resolves by its full
    name to its own id through the exact path, provided no member placed
    after it in the directory registers the same key (its lower-cased,
    trimmed full name): the index then holds the member's id under that
    key and [get_user_id_by_name] returns it. *)
Theorem full_name_resolves_unless_overwritten
    (l1 l2 : list user) (m : user) :
  named m = true ->
  Forall (fun u => registers (normalize (user_name m)) u = false) l2 ->
  user_name_mapping (load (l1 ++ m :: l2)) !! normalize (user_name m)
    = Some (user_id m)
  /\ get_user_id_by_name (load (l1 ++ m :: l2)) (user_name m) = Some (user_id m).
Proof.
  intros Hm Hl2.
  assert (Hk : user_name_mapping (load (l1 ++ m :: l2)) !! normalize (user_name m)
               = Some (user_id m)).
  { cbn [load user_name_mapping].
    apply lookup_build_last; [by apply registers_full_name | done]. }
  split; [exact Hk|].
  apply resolve_exact; [apply in_elt | by apply truthy_strip | exact Hk].
Qed.

Lemma full_name_resolves_unless_overwritten_witness :
  get_user_id_by_name (load [dinesh; divya]) "Dinesh Kumar" = Some "u1".
Proof.
  apply (full_name_resolves_unless_overwritten [] [divya] dinesh).
  - reflexivity.
  - repeat constructor.
Defined.

(** C1 as stated fails: "Kumar" is the full name of the first member and
    the last token of the second, and the later registration wins. *)
Lemma full_name_overwritten_by_later_member :
  In kumar [kumar; divya]
  /\ named kumar = true
  /\ get_user_id_by_name (load [kumar; divya]) (user_name kumar) = Some "u2"
  /\ get_user_id_by_name (load [kumar; divya]) (user_name kumar)
     <> Some (user_id kumar).
Proof.
  split; [by left|]. split; [reflexivity|].
  split; [vm_compute; reflexivity|].
  vm_compute. discriminate.
Qed.

(** C4.  Last writer wins: when two members register the key of a query,
    and the later of them is the last member of the directory to do so,
    the index maps the key to the later member's id, and so does the
    resolution of the query.  At the directory of the worked example and
    the query "Kumar" this gives "u2" (see the witness). *)
Theorem last_writer_wins
    (l1 l2 l3 : list user) (m1 m2 : user) (q : string) :
  PyStr.truthy q = true ->
  registers (normalize q) m1 = true ->
  registers (normalize q) m2 = true ->
  Forall (fun u => registers (normalize q) u = false) l3 ->
  user_name_mapping (load (l1 ++ m1 :: l2 ++ m2 :: l3)) !! normalize q
    = Some (user_id m2)
  /\ get_user_id_by_name (load (l1 ++ m1 :: l2 ++ m2 :: l3)) q
     = Some (user_id m2).
Proof.
  intros Hq _ H2 Hl3.
  replace (l1 ++ m1 :: l2 ++ m2 :: l3) with ((l1 ++ m1 :: l2) ++ m2 :: l3)
    by (rewrite <- app_assoc; reflexivity).
  assert (Hk : user_name_mapping (load ((l1 ++ m1 :: l2) ++ m2 :: l3)) !! normalize q
               = Some (user_id m2)).
  { cbn [load user_name_mapping]. by apply lookup_build_last. }
  split; [exact Hk|].
  apply resolve_exact; [apply in_elt | done | exact Hk].
Qed.

Lemma last_writer_wins_witness :
  user_name_mapping (load [dinesh; divya]) !! "kumar" = Some "u2"
  /\ get_user_id_by_name (load [dinesh; divya]) "Kumar" = Some "u2".
Proof.
  apply (last_writer_wins [] [] [] dinesh divya "Kumar").
  - reflexivity.
  - vm_compute; reflexivity.
  - vm_compute; reflexivity.
  - constructor.
Defined.

(** C8, as amended.  For a member whose trimmed name has at least two
    tokens, the builder's round for that member leaves the initials key
    mapped to the member's id, and the finished index still maps it so
    when no later member registers the same key. *)
Theorem initials_registered_from_two_tokens
    (mapping : gmap string string) (l1 l2 : list user) (u : user) :
  (2 <= length (tokens u))%nat ->
  register_user mapping u !! PyStr.initials (tokens u) = Some (user_id u)
  /\ (Forall (fun u' => registers (PyStr.initials (tokens u)) u' = false) l2 ->
      user_name_mapping (load (l1 ++ u :: l2)) !! PyStr.initials (tokens u)
      = Some (user_id u)).
Proof.
  intros Hlen. pose proof (registers_initials u Hlen) as Hr. split.
  - by rewrite lookup_register_user, Hr.
  - intros Hl2. cbn [load user_name_mapping]. by apply lookup_build_last.
Qed.

Lemma initials_registered_from_two_tokens_witness :
  register_user ∅ dinesh !! "dk" = Some "u1"
  /\ (Forall (fun u' => registers "dk" u' = false) [] ->
      user_name_mapping (load [dinesh]) !! "dk" = Some "u1").
Proof.
  apply (initials_registered_from_two_tokens ∅ [] [] dinesh).
  vm_compute. lia.
Defined.

(** C8 as stated fails for a name of exactly one token: the initials are
    assigned under the guard [len(parts) >= 2] only. *)
Lemma initials_missing_for_single_token :
  length (tokens madonna) = 1%nat
  /\ PyStr.initials (tokens madonna) = "m"
  /\ register_user ∅ madonna !! PyStr.initials (tokens madonna) = None
  /\ user_name_mapping (load [madonna]) !! PyStr.initials (tokens madonna) = None.
Proof. repeat split; vm_compute; reflexivity. Qed.

(** ** The fuzzy matcher *)

Section Fuzzy.

Lemma Qltb_lt (x y : Q) : Qltb x y = true <-> x < y.
Proof.
  unfold Qltb. rewrite Qlt_alt. destruct (x ?= y); split; congruence.
Qed.

Lemma Qltb_ge (x y : Q) : Qltb x y = false <-> y <= x.
Proof.
  split.
  - intros H. apply Qnot_lt_le. intros Hlt. apply Qltb_lt in Hlt. congruence.
  - intros H. destruct (Qltb x y) eqn:E; [|done].
    apply Qltb_lt in E. lra.
Qed.

Lemma Qleb_le (x y : Q) : Qleb x y = true <-> x <= y.
Proof. apply Qle_bool_iff. Qed.

Lemma Qleb_gt (x y : Q) : Qleb x y = false <-> y < x.
Proof.
  split.
  - intros H. apply Qnot_le_lt. intros Hle. apply Qleb_le in Hle. congruence.
  - intros H. destruct (Qleb x y) eqn:E; [|done].
    apply Qleb_le in E. lra.
Qed.

Variable sl : string.

Local Abbreviation sc u := (match_score sl (PyStr.strip (user_name u))).
Local Abbreviation best_inv := (best_inv sl).

Lemma fuzzy_step_inv (seen : list user) (st : option user * Q) (u : user) :
  best_inv seen st -> best_inv (seen ++ [u]) (fuzzy_step sl st u).
Proof.
  intros Hinv. unfold fuzzy_step. fold (named u).
  destruct (named u) eqn:Hn; cbn [negb].
  2:{ (* a blank name: skipped *)
    destruct st as [[m|] bs]; cbn in *.
    - destruct Hinv as (Hbs & Hm & H5 & l1 & l2 & -> & Hl1 & Hl2).
      repeat split; try done. exists l1, (l2 ++ [u]). split.
      { by rewrite <- app_assoc. }
      split; [done|]. intros u' [Hin|[<-|[]]]%in_app_or; [auto | congruence].
    - destruct Hinv as [Hbs Hall]. split; [done|].
      intros u' [Hin|[<-|[]]]%in_app_or; [auto | congruence]. }
  destruct (Qleb 0.5 (sc u)) eqn:H5.
  2:{ (* below the candidate threshold *)
    apply Qleb_gt in H5.
    destruct st as [[m|] bs]; cbn in *.
    - destruct Hinv as (Hbs & Hm & H5m & l1 & l2 & -> & Hl1 & Hl2).
      repeat split; try done. exists l1, (l2 ++ [u]). split.
      { by rewrite <- app_assoc. }
      split; [done|]. intros u' [Hin|[<-|[]]]%in_app_or; [auto|]. intros _. lra.
    - destruct Hinv as [Hbs Hall]. split; [done|].
      intros u' [Hin|[<-|[]]]%in_app_or; auto. }
  apply Qleb_le in H5.
  destruct (Qltb (snd st) (sc u)) eqn:Hlt.
  - (* a new best *)
    apply Qltb_lt in Hlt. cbn. repeat split; try done.
    exists seen, []. split; [done|]. split; [|intros ? []].
    destruct st as [[m|] bs]; cbn in *.
    + destruct Hinv as (Hbs & Hm & H5m & l1 & l2 & -> & Hl1 & Hl2).
      subst bs. intros u' [Hin|[<-|Hin]]%in_app_or Hn'.
      * specialize (Hl1 _ Hin Hn'). lra.
      * done.
      * specialize (Hl2 _ Hin Hn'). lra.
    + destruct Hinv as [Hbs Hall]. intros u' Hin Hn'.
      specialize (Hall _ Hin Hn'). lra.
  - (* not better than the best so far *)
    apply Qltb_ge in Hlt.
    destruct st as [[m|] bs]; cbn in *.
    + destruct Hinv as (Hbs & Hm & H5m & l1 & l2 & -> & Hl1 & Hl2).
      subst bs. repeat split; try done. exists l1, (l2 ++ [u]). split.
      { by rewrite <- app_assoc. }
      split; [done|]. intros u' [Hin|[<-|[]]]%in_app_or; auto.
    + destruct Hinv as [-> Hall]. lra.
Qed.

Lemma fuzzy_fold_inv (rest seen : list user) (st : option user * Q) :
  best_inv seen st ->
  best_inv (seen ++ rest) (fold_left (fuzzy_step sl) rest st).
Proof.
  revert seen st. induction rest as [|u rest IH]; intros seen st Hinv; cbn.
  - by rewrite app_nil_r.
  - replace (seen ++ u :: rest) with ((seen ++ [u]) ++ rest)
      by (rewrite <- app_assoc; reflexivity).
    apply IH. by apply fuzzy_step_inv.
Qed.

Lemma fuzzy_loop_inv (users : list user) :
  best_inv users (fuzzy_loop sl users).
Proof.
  apply (fuzzy_fold_inv users [] (None, 0)). cbn. split; [done|intros ? []].
Qed.

End Fuzzy.

(** C3.  When the normalised query misses the index, a returned member is
    a named member of the directory whose best heuristic score is at
    least 0.6, no named member scores higher, and every named member
    placed before it scores strictly lower (so among members with the
    equal top score the earliest is returned); when nothing is returned,
    the query is empty or every named member scores below 0.6. *)
Theorem fuzzy_match_threshold_and_ties (self : manager) (q : string) :
  user_name_mapping self !! normalize q = None ->
  match find_user_by_name self q with
  | Some m =>
      exists l1 l2, workspace_users self = l1 ++ m :: l2
        /\ named m = true
        /\ 0.6 <= score_of q m
        /\ (forall u, In u l1 -> named u = true -> score_of q u < score_of q m)
        /\ (forall u, In u l2 -> named u = true -> score_of q u <= score_of q m)
  | None =>
      q = EmptyString
      \/ forall u, In u (workspace_users self) -> named u = true ->
                   score_of q u < 0.6
  end.
Proof.
  intros Hmiss. unfold find_user_by_name.
  destruct q as [|c q']; [by left|]. cbn [PyStr.truthy negb orb].
  set (q := String c q') in *.
  destruct (workspace_users self) as [|u0 users'] eqn:Husers.
  { right. intros ? []. }
  rewrite <- Husers. fold (normalize q). rewrite Hmiss.
  unfold fuzzy_match.
  pose proof (fuzzy_loop_inv (normalize q) (workspace_users self)) as Hinv.
  destruct (fuzzy_loop (normalize q) (workspace_users self)) as [[m|] bs];
    unfold best_inv in Hinv; cbv beta zeta in Hinv.
  - destruct Hinv as (-> & Hm & H5 & l1 & l2 & Hsplit & Hl1 & Hl2).
    destruct (Qleb 0.6 _) eqn:H6.
    + apply Qleb_le in H6. exists l1, l2. by repeat split.
    + apply Qleb_gt in H6. right. rewrite Hsplit.
      intros u [Hin|[<-|Hin]]%in_app_or Hn; unfold score_of.
      * specialize (Hl1 _ Hin Hn). lra.
      * done.
      * specialize (Hl2 _ Hin Hn). lra.
  - destruct Hinv as [_ Hall]. right. intros u Hin Hn.
    specialize (Hall _ Hin Hn). unfold score_of. lra.
Qed.

Lemma fuzzy_match_threshold_and_ties_witness :
  find_user_by_name (load [dinesh; dinesh_twin]) "Dines" = Some dinesh
  /\ exists l1 l2, [dinesh; dinesh_twin] = l1 ++ dinesh :: l2
        /\ named dinesh = true
        /\ 0.6 <= score_of "Dines" dinesh
        /\ (forall u, In u l1 -> named u = true ->
                      score_of "Dines" u < score_of "Dines" dinesh)
        /\ (forall u, In u l2 -> named u = true ->
                      score_of "Dines" u <= score_of "Dines" dinesh).
Proof.
  split; [vm_compute; reflexivity|].
  exact (fuzzy_match_threshold_and_ties (load [dinesh; dinesh_twin]) "Dines" eq_refl).
Defined.

(** *** Blank queries *)

Lemma split_from_truthy (s cur : string) :
  Forall (fun t => PyStr.truthy t = true) (PyStr.split_from cur s).
Proof.
  revert cur. induction s as [|c s IH]; intros cur; cbn [PyStr.split_from].
  - destruct cur; repeat constructor.
  - destruct (PyStr.is_space c); [|apply IH].
    destruct cur; [apply IH|]. constructor; [done | apply IH].
Qed.

Lemma split_truthy (s : string) :
  Forall (fun t => PyStr.truthy t = true) (PyStr.split s).
Proof. apply split_from_truthy. Qed.

Lemma lower_truthy (s : string) : PyStr.truthy (PyStr.lower s) = PyStr.truthy s.
Proof. by destruct s. Qed.

Lemma truthy_nonempty (s : string) : PyStr.truthy s = true -> s <> EmptyString.
Proof. by destruct s. Qed.

Lemma initials_truthy (p : string) (ps : list string) :
  PyStr.truthy p = true -> PyStr.truthy (PyStr.initials (p :: ps)) = true.
Proof. by destruct p. Qed.

Lemma last_part_In (p : string) (ps : list string) :
  In (PyStr.last_part (p :: ps)) (p :: ps).
Proof.
  unfold PyStr.last_part. revert p. induction ps as [|x ps IH]; intros p.
  - by left.
  - right. apply (IH x).
Qed.

(** The empty string is never a key of the index. *)
Lemma registers_empty (u : user) : registers EmptyString u = false.
Proof.
  unfold registers. apply bool_decide_eq_false_2. unfold keys_of.
  destruct (PyStr.truthy (PyStr.strip (user_name u))) eqn:Hn;
    [|apply not_elem_of_nil].
  pose proof (split_truthy (PyStr.strip (user_name u))) as Hparts.
  intros Hin. apply list_elem_of_In in Hin.
  destruct Hin as [Hk|Hin].
  { apply (truthy_nonempty (PyStr.lower (PyStr.strip (user_name u))));
      [by rewrite lower_truthy | done]. }
  destruct (PyStr.split (PyStr.strip (user_name u))) as [|p0 ps] eqn:Hs;
    [destruct Hin|].
  assert (Hp0 : PyStr.truthy p0 = true) by (by inversion Hparts).
  assert (Hlast : PyStr.truthy (PyStr.last_part (p0 :: ps)) = true).
  { rewrite List.Forall_forall in Hparts. apply Hparts, last_part_In. }
  destruct Hin as [Hk|Hin].
  { apply (truthy_nonempty (PyStr.lower p0)); [by rewrite lower_truthy | done]. }
  apply in_app_or in Hin as [Hin|Hin].
  { destruct (1 <? _)%nat; [|destruct Hin]. destruct Hin as [Hk|[]].
    apply (truthy_nonempty (PyStr.lower (PyStr.last_part (p0 :: ps))));
      [by rewrite lower_truthy | done]. }
  apply in_app_or in Hin as [Hin|Hin].
  { apply in_map_iff in Hin as (x & Hx & Hin). apply filter_In in Hin as [_ Hin].
    apply (truthy_nonempty (PyStr.lower x)); [by rewrite lower_truthy | done]. }
  destruct (2 <=? _)%nat; [|destruct Hin]. destruct Hin as [Hk|[Hk|[]]].
  - unfold first_last_key in Hk. cbn [List.hd] in Hk.
    destruct (PyStr.lower p0); discriminate.
  - apply (truthy_nonempty (PyStr.initials (p0 :: ps)));
      [by apply initials_truthy | done].
Qed.

Lemma lookup_empty_key (users : list user) :
  user_name_mapping (load users) !! EmptyString = None.
Proof.
  cbn [load user_name_mapping].
  destruct (build_name_mapping users ∅ !! EmptyString) as [v|] eqn:Hk; [|done].
  apply lookup_build_Some in Hk as [Hk|(u & _ & Hu & _)].
  - by rewrite lookup_empty in Hk.
  - by rewrite registers_empty in Hu.
Qed.

Lemma py_max_ge (x : Q) (rest : list Q) (y : Q) :
  In y rest -> y <= py_max x rest.
Proof.
  unfold py_max. revert x. induction rest as [|z rest IH]; intros x; [intros []|].
  assert (Hmono : forall l b, b <= fold_left (fun best y0 => if Qltb best y0 then y0 else best) l b).
  { induction l as [|w l IHl]; intros b0; cbn; [lra|].
    destruct (Qltb b0 w) eqn:E.
    - apply Qltb_lt in E. specialize (IHl w). lra.
    - apply IHl. }
  cbn [fold_left]. intros [->|Hin].
  - destruct (Qltb x y) eqn:E.
    + apply Hmono.
    + apply Qltb_ge in E. specialize (Hmono rest x). lra.
  - by apply IH.
Qed.

Lemma contains_empty (s : string) : PyStr.contains s EmptyString = true.
Proof. by destruct s. Qed.

(** Against the empty normalised query every name scores at least 0.8. *)
Lemma match_score_empty_query (name : string) :
  0.8 <= match_score EmptyString name.
Proof.
  unfold match_score, match_scores. apply py_max_ge.
  rewrite contains_empty. by left.
Qed.

(** A query made of white space only is answered with a member as soon
    as the directory has a named member. *)
Lemma blank_query_matches_some_member (users : list user) (q : string) :
  PyStr.truthy q = true ->
  PyStr.strip q = EmptyString ->
  (exists u, In u users /\ named u = true) ->
  exists m, find_user_by_name (load users) q = Some m /\ named m = true.
Proof.
  intros Hq Hstrip (u & Hu & Hn).
  unfold find_user_by_name. rewrite Hq, Hstrip. cbn [negb orb PyStr.lower].
  rewrite lookup_empty_key. cbn [workspace_users load].
  destruct users as [|u0 us] eqn:Eu; [destruct Hu|]. rewrite <- Eu in *.
  unfold fuzzy_match.
  pose proof (fuzzy_loop_inv EmptyString users) as Hinv.
  destruct (fuzzy_loop EmptyString users) as [[m|] bs];
    unfold best_inv in Hinv; cbv beta zeta in Hinv.
  - destruct Hinv as (-> & Hm & _).
    pose proof (match_score_empty_query (PyStr.strip (user_name m))) as H8.
    rewrite (proj2 (Qleb_le 0.6 _)) by lra. by exists m.
  - exfalso. destruct Hinv as [_ Hall]. specialize (Hall u Hu Hn).
    pose proof (match_score_empty_query (PyStr.strip (user_name u))). lra.
Qed.

(** C2, evaluated.  The empty query is rejected for every manager, but
    a query of one blank is not: its normalised form is the empty string,
    which every name contains, so the first named member scores 0.8 and
    is returned. *)
Theorem blank_query_returns_member :
  (forall self : manager, find_user_by_name self EmptyString = None)
  /\ PyStr.strip " " = EmptyString
  /\ find_user_by_name (load [dinesh; divya]) " " = Some dinesh
  /\ score_of " " dinesh == 0.8.
Proof.
  split; [reflexivity|]. split; [reflexivity|].
  split; vm_compute; reflexivity.
Qed.

(** ** The similarity ratio lies between 0 and 1 *)

Section DifflibBounds.

Variables a b : list ascii.

Lemma scan_row_fits (alo ahi blo bhi i : nat) (j2len : gmap nat nat) :
  (alo <= i < ahi)%nat ->
  runs_fit alo blo i j2len ->
  forall (js : list nat) (newj2len : gmap nat nat) (best : Difflib.Match),
    runs_fit alo blo (S i) newj2len ->
    inside alo ahi blo bhi best ->
    let '(m, best') := Difflib.scan_row i blo bhi j2len js newj2len best in
    runs_fit alo blo (S i) m /\ inside alo ahi blo bhi best'.
Proof.
  intros Hi Hprev js.
  induction js as [|j js IH]; intros newj2len best Hnew Hbest;
    cbn [Difflib.scan_row].
  { by split. }
  destruct (j <? blo)%nat eqn:Hlo; [by apply IH|].
  destruct (bhi <=? j)%nat eqn:Hhi; [by split|].
  apply Nat.ltb_ge in Hlo. apply Nat.leb_gt in Hhi.
  destruct best as [[bi bj] bk].
  assert (Hk : (Difflib.j2len_get j2len j + 1 <= S i - alo
                /\ Difflib.j2len_get j2len j + 1 <= j + 1 - blo)%nat).
  { unfold Difflib.j2len_get. destruct j as [|j']; [lia|].
    destruct (j2len !! j') as [k'|] eqn:Hj'; cbn; [|lia].
    destruct (Hprev _ _ Hj'). lia. }
  apply IH.
  - intros j0 k0. rewrite lookup_insert.
    case_decide as Hj; [|by apply Hnew].
    intros [= <-]. subst j0. lia.
  - destruct (bk <? _)%nat; [|done].
    unfold inside. lia.
Qed.

Lemma scan_rows_fits (alo ahi blo bhi : nat) :
  forall (n i : nat) (j2len : gmap nat nat) (best : Difflib.Match),
    (alo <= i)%nat -> (i + n <= ahi)%nat ->
    runs_fit alo blo i j2len ->
    inside alo ahi blo bhi best ->
    inside alo ahi blo bhi
      (Difflib.scan_rows a b blo bhi (List.seq i n) j2len best).
Proof.
  induction n as [|n IH]; intros i j2len best Hlo Hhi Hprev Hbest;
    cbn [Difflib.scan_rows List.seq]; [done|].
  destruct (nth_error a i) as [c|]; [|done].
  pose proof (scan_row_fits alo ahi blo bhi i j2len ltac:(lia) Hprev
                (Difflib.b2j b c) ∅ best) as Hrow.
  destruct (Difflib.scan_row i blo bhi j2len (Difflib.b2j b c) ∅ best)
    as [m best'].
  destruct Hrow as [Hm Hbest']; [by intros ? ? ?|done|].
  apply IH; [lia | lia | done | done].
Qed.

Lemma extend_back_fits (alo ahi blo bhi : nat) :
  forall besti bestj bestsize : nat,
    inside alo ahi blo bhi (besti, bestj, bestsize) ->
    inside alo ahi blo bhi
      (Difflib.extend_back a b alo blo besti bestj bestsize).
Proof.
  induction besti as [|i' IH]; intros bestj bestsize Hin;
    cbn [Difflib.extend_back]; [done|].
  destruct bestj as [|j']; [done|].
  destruct ((alo <? S i')%nat && (blo <? S j')%nat) eqn:Hg; [|done].
  apply andb_true_iff in Hg as [Hg1%Nat.ltb_lt Hg2%Nat.ltb_lt].
  destruct (nth_error a i') as [x|]; [|done].
  destruct (nth_error b j') as [y|]; [|done].
  destruct (ascii_dec x y); [|done].
  apply IH. unfold inside in *. lia.
Qed.

Lemma extend_fwd_fits (alo ahi blo bhi : nat) :
  forall n besti bestj bestsize : nat,
    inside alo ahi blo bhi (besti, bestj, bestsize) ->
    inside alo ahi blo bhi
      (Difflib.extend_fwd n a b ahi bhi besti bestj bestsize).
Proof.
  induction n as [|n IH]; intros besti bestj bestsize Hin;
    cbn [Difflib.extend_fwd]; [done|].
  destruct ((besti + bestsize <? ahi)%nat && (bestj + bestsize <? bhi)%nat)
    eqn:Hg; [|done].
  apply andb_true_iff in Hg as [Hg1%Nat.ltb_lt Hg2%Nat.ltb_lt].
  destruct (nth_error a (besti + bestsize)) as [x|]; [|done].
  destruct (nth_error b (bestj + bestsize)) as [y|]; [|done].
  destruct (ascii_dec x y); [|done].
  apply IH. unfold inside in *. lia.
Qed.

(** The longest match of a window lies inside the window. *)
Lemma find_longest_match_fits (alo ahi blo bhi : nat) :
  (alo <= ahi)%nat -> (blo <= bhi)%nat ->
  inside alo ahi blo bhi (Difflib.find_longest_match a b alo ahi blo bhi).
Proof.
  intros Ha Hb. unfold Difflib.find_longest_match.
  pose proof (scan_rows_fits alo ahi blo bhi (ahi - alo) alo ∅ (alo, blo, O)
                ltac:(lia) ltac:(lia)) as Hscan.
  destruct (Difflib.scan_rows _ _ _ _ _ _ _) as [[i j] k].
  pose proof (extend_back_fits alo ahi blo bhi i j k) as Hback.
  destruct (Difflib.extend_back _ _ _ _ _ _ _) as [[i' j'] k'].
  apply extend_fwd_fits, Hback, Hscan.
  - by intros ? ? ?.
  - unfold inside. lia.
Qed.

(** The blocks of a window are no longer, together, than the window. *)
Lemma total_size_nil : total_size [] = 0%nat.
Proof. reflexivity. Qed.

Lemma total_size_cons (x : Difflib.Match) (l : list Difflib.Match) :
  total_size (x :: l) = (snd x + total_size l)%nat.
Proof. reflexivity. Qed.

Lemma total_size_app (l1 l2 : list Difflib.Match) :
  total_size (l1 ++ l2) = (total_size l1 + total_size l2)%nat.
Proof. unfold total_size. by rewrite map_app, list_sum_app. Qed.

(** The blocks of a window are no longer, together, than the window. *)
Lemma blocks_total (fuel : nat) :
  forall alo ahi blo bhi : nat,
    (alo <= ahi)%nat -> (blo <= bhi)%nat ->
    (total_size (Difflib.blocks fuel a b alo ahi blo bhi) <= ahi - alo
     /\ total_size (Difflib.blocks fuel a b alo ahi blo bhi) <= bhi - blo)%nat.
Proof.
  induction fuel as [|fuel IH]; intros alo ahi blo bhi Ha Hb;
    cbn [Difflib.blocks]; [cbn; lia|].
  pose proof (find_longest_match_fits alo ahi blo bhi Ha Hb) as Hfit.
  destruct (Difflib.find_longest_match a b alo ahi blo bhi) as [[i j] k].
  unfold inside in Hfit.
  destruct (k =? 0)%nat eqn:Hk; [cbn; lia|].
  apply Nat.eqb_neq in Hk.
  destruct (IH alo i blo j) as [HL1 HL2]; [lia | lia |].
  destruct (IH (i + k)%nat ahi (j + k)%nat bhi) as [HR1 HR2]; [lia | lia |].
  rewrite total_size_app, total_size_cons. cbn [snd].
  destruct ((alo <? i)%nat && (blo <? j)%nat);
    destruct ((i + k <? ahi)%nat && (j + k <? bhi)%nat);
    rewrite ?total_size_nil; lia.
Qed.

Lemma matches_le :
  (2 * Difflib.matches a b <= length a + length b)%nat.
Proof.
  unfold Difflib.matches, Difflib.get_matching_blocks.
  pose proof (blocks_total (S (length a)) 0 (length a) 0 (length b)
                ltac:(lia) ltac:(lia)) as [H1 H2].
  unfold total_size in *. lia.
Qed.

End DifflibBounds.

Lemma calculate_ratio_bounds (m n : nat) :
  (2 * m <= n)%nat -> 0 <= Difflib.calculate_ratio m n <= 1.
Proof.
  intros H. unfold Difflib.calculate_ratio.
  destruct n as [|n']; [lra|].
  unfold Qle; cbn [Qnum Qden]. split; [lia|].
  rewrite Z.mul_1_r, Z.mul_1_l.
  change (Z.pos (Pos.of_nat (S n'))) with (Z.of_nat (Pos.to_nat (Pos.of_nat (S n')))) || idtac.
  rewrite <- positive_nat_Z, Nat2Pos.id by lia. lia.
Qed.

(** [ratio] is a number between 0 and 1. *)
Lemma ratio_bounds (x y : string) : 0 <= Difflib.ratio x y <= 1.
Proof. apply calculate_ratio_bounds, matches_le. Qed.

(** Enough fuel: the blocks of a window do not depend on the fuel once it
    exceeds the length of the window. *)
Lemma blocks_fuel (a b : list ascii) (f1 : nat) :
  forall (f2 alo ahi blo bhi : nat),
    (alo <= ahi)%nat -> (blo <= bhi)%nat ->
    (ahi - alo < f1)%nat -> (ahi - alo < f2)%nat ->
    Difflib.blocks f1 a b alo ahi blo bhi = Difflib.blocks f2 a b alo ahi blo bhi.
Proof.
  induction f1 as [|f1 IH]; intros f2 alo ahi blo bhi Ha Hb H1 H2; [lia|].
  destruct f2 as [|f2]; [lia|]. cbn [Difflib.blocks].
  pose proof (find_longest_match_fits a b alo ahi blo bhi Ha Hb) as Hfit.
  destruct (Difflib.find_longest_match a b alo ahi blo bhi) as [[i j] k].
  unfold inside in Hfit.
  destruct (k =? 0)%nat eqn:Hk; [done|]. apply Nat.eqb_neq in Hk.
  f_equal; [f_equal|].
  - destruct ((alo <? i)%nat && (blo <? j)%nat); [|done]. apply IH; lia.
  - destruct ((i + k <? ahi)%nat && (j + k <? bhi)%nat); [|done]. apply IH; lia.
Qed.

Lemma get_matching_blocks_fuel (a b : list ascii) (fuel : nat) :
  (length a < fuel)%nat ->
  Difflib.blocks fuel a b 0 (length a) 0 (length b) = Difflib.get_matching_blocks a b.
Proof. intros H. apply blocks_fuel; lia. Qed.

(** ** Scores *)

Section Scores.

Lemma py_max_bounds (lo hi x : Q) (rest : list Q) :
  lo <= x <= hi ->
  Forall (fun y => lo <= y <= hi) rest ->
  lo <= py_max x rest <= hi.
Proof.
  unfold py_max. revert x. induction rest as [|y rest IH]; intros x Hx Hr; cbn.
  - done.
  - apply Forall_cons in Hr as [Hy Hr].
    destruct (Qltb x y); by apply IH.
Qed.

(** A fuzzy match score is the greatest of numbers between 0 and 1. *)
Lemma match_score_bounds (sl name : string) : 0 <= match_score sl name <= 1.
Proof.
  unfold match_score, match_scores.
  apply py_max_bounds; [apply ratio_bounds|].
  repeat (apply Forall_app; split).
  - destruct (_ || _); repeat constructor; lra.
  - destruct (PyStr.split name) as [|p0 ?]; [constructor|].
    destruct (PyStr.eqb _ _); repeat constructor; lra.
  - destruct (_ && _); repeat constructor; lra.
  - induction (PyStr.interior (PyStr.split name)) as [|x l IH]; cbn; [constructor|].
    apply Forall_app; split; [|exact IH].
    destruct (PyStr.eqb _ _); repeat constructor; lra.
  - destruct (PyStr.eqb _ _); repeat constructor; lra.
Qed.

(** A relevance score is a sum of at most four bonuses and half a ratio. *)
Lemma suggestion_score_bounds (pl name : string) :
  0 <= suggestion_score pl name <= 3.5.
Proof.
  unfold suggestion_score.
  pose proof (ratio_bounds pl (PyStr.lower name)) as Hr.
  destruct (PyStr.startswith (PyStr.lower name) pl);
    destruct (PyStr.contains (PyStr.lower name) pl);
    destruct (PyStr.split name) as [|p0 ps];
    try destruct (PyStr.startswith (PyStr.lower p0) pl);
    destruct (_ && _); lra.
Qed.

End Scores.

(** ** The ranking of suggestions *)

Section Ranking.

Lemma insert_desc_perm (x : suggestion) (l : list suggestion) :
  Permutation (insert_desc x l) (x :: l).
Proof.
  induction l as [|y l IH]; cbn; [done|].
  destruct (Qltb _ _); [|done].
  rewrite IH. apply perm_swap.
Qed.

Lemma sort_desc_perm (l : list suggestion) : Permutation (sort_desc l) l.
Proof.
  induction l as [|x l IH]; cbn; [done|].
  rewrite insert_desc_perm. by constructor.
Qed.

Lemma insert_desc_descending (x : suggestion) (l : list suggestion) :
  descending l -> descending (insert_desc x l).
Proof.
  unfold descending. induction l as [|y l IH]; intros Hl; cbn.
  - repeat constructor.
  - apply StronglySorted_inv in Hl as [Hl Hy].
    destruct (Qltb (sug_score x) (sug_score y)) eqn:Hxy.
    + apply Qltb_lt in Hxy. constructor; [by apply IH|].
      rewrite (Forall_forall (fun z => sug_score z <= sug_score y)).
      intros z Hz%list_elem_of_In.
      apply (Permutation_in _ (insert_desc_perm x l)) in Hz as [<-|Hz].
      * lra.
      * rewrite Forall_forall in Hy. apply Hy. by apply list_elem_of_In.
    + apply Qltb_ge in Hxy. constructor; [by constructor|].
      constructor; [done|].
      eapply Forall_impl; [exact Hy|]. cbn. intros z Hz. lra.
Qed.

Lemma sort_desc_descending (l : list suggestion) : descending (sort_desc l).
Proof.
  induction l as [|x l IH]; cbn; [constructor|].
  by apply insert_desc_descending.
Qed.

(** Stability: the entries of any one score keep their order. *)
Lemma insert_desc_stable (q : Q) (x : suggestion) (l : list suggestion) :
  List.filter (scoring q) (insert_desc x l) = List.filter (scoring q) (x :: l).
Proof.
  induction l as [|y l IH]; [done|].
  cbn [insert_desc]. destruct (Qltb (sug_score x) (sug_score y)) eqn:Hxy; [|done].
  apply Qltb_lt in Hxy.
  cbn [List.filter] in *. rewrite IH.
  destruct (scoring q x) eqn:Hx; [|done].
  destruct (scoring q y) eqn:Hy; [|done].
  unfold scoring in Hx, Hy. apply Qeq_bool_iff in Hx, Hy. lra.
Qed.

Lemma sort_desc_stable (q : Q) (l : list suggestion) :
  List.filter (scoring q) (sort_desc l) = List.filter (scoring q) l.
Proof.
  induction l as [|x l IH]; [done|].
  cbn [sort_desc]. rewrite insert_desc_stable. cbn [List.filter].
  by rewrite IH.
Qed.

Lemma In_firstn {A : Type} (x : A) (n : nat) (l : list A) :
  In x (firstn n l) -> In x l.
Proof.
  revert n. induction l as [|y l IH]; intros [|n]; cbn; try tauto.
  intros [->|H]; [by left | right; eauto].
Qed.

Lemma descending_firstn (n : nat) (l : list suggestion) :
  descending l -> descending (firstn n l).
Proof.
  unfold descending. revert n. induction l as [|x l IH]; intros [|n] Hl; cbn;
    try constructor.
  - apply IH. by apply StronglySorted_inv in Hl as [? _].
  - apply StronglySorted_inv in Hl as [_ Hx].
    rewrite Forall_forall in Hx |- *. intros y Hy. apply Hx.
    apply list_elem_of_In. apply list_elem_of_In in Hy.
    eapply In_firstn; eassumption.
Qed.

Lemma filter_firstn_prefix {A : Type} (f : A -> bool) (n : nat) (l : list A) :
  exists rest, List.filter f l = List.filter f (firstn n l) ++ rest.
Proof.
  exists (List.filter f (skipn n l)).
  rewrite <- List.filter_app. by rewrite firstn_skipn.
Qed.

Lemma In_slice_to {A : Type} (x : A) (l : list A) (n : Z) :
  In x (slice_to l n) -> In x l.
Proof. unfold slice_to. destruct (0 <=? n)%Z; apply In_firstn. Qed.

Lemma length_slice_to {A : Type} (l : list A) (n : Z) :
  (0 <= n)%Z -> (Z.of_nat (length (slice_to l n)) <= n)%Z.
Proof.
  intros Hn. unfold slice_to. rewrite (proj2 (Z.leb_le 0 n) Hn).
  rewrite length_firstn. lia.
Qed.

Variable pl : string.

(** The candidates are the named users that score more than 0.3, in the
    order of the directory. *)
Lemma In_candidates (users : list user) (s : suggestion) :
  In s (candidates pl users) ->
  exists u, In u users /\ named u = true
    /\ s = mkSuggestion u (suggestion_score pl (PyStr.strip (user_name u)))
                         (PyStr.strip (user_name u))
    /\ 0.3 < sug_score s.
Proof.
  unfold candidates. rewrite in_flat_map. intros (u & Hu & Hs).
  exists u. split; [done|]. fold (named u) in Hs.
  destruct (named u); cbn [negb] in Hs; [|destruct Hs].
  destruct (Qltb 0.3 _) eqn:H3; [|destruct Hs].
  destruct Hs as [<-|[]]. apply Qltb_lt in H3. by repeat split.
Qed.

Lemma candidates_users (q : Q) (users : list user) :
  map sug_user (List.filter (scoring q) (candidates pl users))
  = List.filter
      (fun u => named u
                && Qltb 0.3 (suggestion_score pl (PyStr.strip (user_name u)))
                && Qeq_bool (suggestion_score pl (PyStr.strip (user_name u))) q)
      users.
Proof.
  induction users as [|u users IH]; [done|].
  cbn [candidates flat_map List.filter]. fold (candidates pl users).
  rewrite List.filter_app, map_app, IH. fold (named u).
  destruct (named u); cbn [negb andb]; [|done].
  destruct (Qltb 0.3 _); cbn [andb List.filter]; [|done].
  unfold scoring at 1. cbn [sug_score].
  destruct (Qeq_bool _ q); reflexivity.
Qed.

End Ranking.

(** C5, as amended.  For every partial name and every limit that is not
    negative: each returned suggestion is a named member of the directory
    carrying its additive score, which exceeds 0.3; the suggestions are in
    descending order of score; for every score, the members returned with
    that score are an initial part of the directory's members having it,
    in directory order (a stable sort, then a cut); at most [limit]
    suggestions are returned, and none when the limit is 0. *)
Theorem suggestions_ranked (self : manager) (partial : string) (limit : Z) :
  (0 <= limit)%Z ->
  (forall s, In s (get_name_suggestions self partial limit) ->
     In (sug_user s) (workspace_users self)
     /\ named (sug_user s) = true
     /\ sug_score s = relevance partial (sug_user s)
     /\ 0.3 < sug_score s)
  /\ descending (get_name_suggestions self partial limit)
  /\ (forall q, exists rest,
        List.filter (relevant_with partial q) (workspace_users self)
        = map sug_user
            (List.filter (scoring q) (get_name_suggestions self partial limit))
          ++ rest)
  /\ (Z.of_nat (length (get_name_suggestions self partial limit)) <= limit)%Z
  /\ (limit = 0%Z -> get_name_suggestions self partial limit = []).
Proof.
  intros Hlimit. unfold get_name_suggestions.
  destruct (negb (PyStr.truthy partial) || _) eqn:Hguard.
  { split; [intros ? []|]. split; [constructor|].
    split; [intros q; by eexists|]. split; [cbn; lia | done]. }
  fold (normalize partial).
  set (cands := candidates (normalize partial) (workspace_users self)).
  unfold slice_to. rewrite (proj2 (Z.leb_le 0 limit) Hlimit).
  split; [|split; [|split; [|split]]].
  - intros s Hs%In_firstn.
    apply (Permutation_in _ (sort_desc_perm cands)) in Hs.
    apply In_candidates in Hs as (u & Hu & Hn & -> & H3). by repeat split.
  - apply descending_firstn, sort_desc_descending.
  - intros q.
    destruct (filter_firstn_prefix (scoring q) (Z.to_nat limit) (sort_desc cands))
      as [rest Hrest].
    exists (map sug_user rest).
    rewrite <- map_app, <- Hrest, sort_desc_stable.
    unfold cands. by rewrite candidates_users.
  - rewrite length_firstn. lia.
  - intros ->. reflexivity.
Qed.

Lemma suggestions_ranked_witness :
  map (fun s => user_id (sug_user s))
      (get_name_suggestions (load [dinesh; divya]) "Di" 5) = ["u2"; "u1"]
  /\ descending (get_name_suggestions (load [dinesh; divya]) "Di" 5)
  /\ (Z.of_nat (length (get_name_suggestions (load [dinesh; divya]) "Di" 5)) <= 5)%Z.
Proof.
  pose proof (suggestions_ranked (load [dinesh; divya]) "Di" 5 ltac:(lia))
    as (_ & Hdesc & _ & Hlen & _).
  split; [vm_compute; reflexivity|]. split; [exact Hdesc | exact Hlen].
Defined.

(** C5 as stated fails for a negative limit: [suggestions[:-1]] drops the
    last suggestion only, so one suggestion is returned for limit -1. *)
Lemma negative_limit_exceeded :
  map (fun s => user_id (sug_user s))
      (get_name_suggestions (load [dinesh; divya]) "Di" (-1)) = ["u2"]
  /\ ~ (Z.of_nat (length (get_name_suggestions (load [dinesh; divya]) "Di" (-1)))
        <= -1)%Z.
Proof. split; [vm_compute; reflexivity|]. vm_compute. intros H; by apply H. Qed.

(** C10.  Every suggestion returned scores more than 0.3 and at most
    3.5; a fuzzy match score lies between 0 and 1, whereas a suggestion
    score can exceed 1 (both suggestions for "Di" in the worked example
    do). *)
Theorem suggestion_score_range :
  (forall (self : manager) (partial : string) (limit : Z) (s : suggestion),
     In s (get_name_suggestions self partial limit) ->
     0.3 < sug_score s /\ sug_score s <= 3.5)
  /\ (forall sl name : string, 0 <= match_score sl name <= 1)
  /\ Forall (fun s => 1 < sug_score s)
       (get_name_suggestions (load [dinesh; divya]) "Di" 5)
  /\ length (get_name_suggestions (load [dinesh; divya]) "Di" 5) = 2%nat.
Proof.
  split; [|split; [apply match_score_bounds|]].
  - intros self partial limit s. unfold get_name_suggestions.
    destruct (negb (PyStr.truthy partial) || _); [intros []|].
    intros Hs%In_slice_to.
    apply (Permutation_in _ (sort_desc_perm _)) in Hs.
    apply In_candidates in Hs as (u & Hu & Hn & -> & H3).
    split; [exact H3|]. apply suggestion_score_bounds.
  - split; [|vm_compute; reflexivity].
    repeat constructor; vm_compute; reflexivity.
Qed.

Lemma suggestion_score_range_witness :
  Forall (fun s => 0.3 < sug_score s /\ sug_score s <= 3.5)
    (get_name_suggestions (load [dinesh; divya]) "Di" 5).
Proof.
  apply List.Forall_forall. intros s Hs.
  exact (proj1 suggestion_score_range (load [dinesh; divya]) "Di" 5%Z s Hs).
Defined.

(** ** The reported confidence *)

(** C6, as amended.  For a non-empty query whose normalised form is in
    the index, [find_user_by_name] resolves the indexed id to a member
    without computing any score, and [match_user_name] then reports as
    confidence the similarity ratio of the lower-cased query and the
    member's lower-cased name (not the constant 1.0). *)
Theorem exact_hit_confidence_is_ratio
    (self : manager) (q uid : string) (u : user) :
  PyStr.truthy q = true ->
  workspace_users self <> [] ->
  user_name_mapping self !! normalize q = Some uid ->
  user_with_id (workspace_users self) uid = Some u ->
  find_user_by_name self q = Some u
  /\ match_user_name self q
     = {| found := true;
          matched_user := Some u;
          confidence_score :=
            Some (Difflib.ratio (PyStr.lower q) (PyStr.lower (user_name u)));
          original_search := q |}.
Proof.
  intros Hq Husers Hk Hu.
  assert (Hfind : find_user_by_name self q = Some u).
  { unfold find_user_by_name. rewrite Hq. cbn [negb orb].
    destruct (workspace_users self) as [|u0 us] eqn:E; [done|].
    fold (normalize q). by rewrite Hk. }
  split; [exact Hfind|]. unfold match_user_name. by rewrite Hfind.
Qed.

Lemma exact_hit_confidence_is_ratio_witness :
  find_user_by_name (load [dinesh; divya]) "Dinesh" = Some dinesh
  /\ match_user_name (load [dinesh; divya]) "Dinesh"
     = {| found := true;
          matched_user := Some dinesh;
          confidence_score :=
            Some (Difflib.ratio (PyStr.lower "Dinesh")
                    (PyStr.lower (user_name dinesh)));
          original_search := "Dinesh" |}.
Proof.
  apply (exact_hit_confidence_is_ratio (load [dinesh; divya]) "Dinesh" "u1" dinesh).
  - reflexivity.
  - discriminate.
  - vm_compute; reflexivity.
  - vm_compute; reflexivity.
Defined.

(** C6 as stated fails: "Dinesh" hits the index (the first token of
    "Dinesh Kumar") and is reported with confidence 12/18. *)
Lemma exact_hit_confidence_below_one :
  user_name_mapping (load [dinesh; divya]) !! normalize "Dinesh" = Some "u1"
  /\ confidence_score (match_user_name (load [dinesh; divya]) "Dinesh")
     = Some (12 # 18)
  /\ ~ (12 # 18 == 1).
Proof.
  split; [vm_compute; reflexivity|].
  split; [vm_compute; reflexivity|].
  intros H. vm_compute in H. discriminate.
Qed.

(** ** The paginated fetch *)

Section FetchFacts.

Lemma size_list_to_set_le (l : list string) :
  (size (list_to_set l : gset string) <= length l)%nat.
Proof.
  induction l as [|x l IH]; cbn [list_to_set length].
  - by rewrite size_empty.
  - rewrite size_union_alt, size_singleton.
    assert ((size (list_to_set l ∖ {[x]} : gset string)
             <= size (list_to_set l : gset string))%nat)
      by (apply subseteq_size; set_solver).
    lia.
Qed.

Lemma size_list_to_set_NoDup (l : list string) :
  length l = size (list_to_set l : gset string) -> NoDup l.
Proof.
  induction l as [|x l IH]; cbn [list_to_set length]; intros Hlen.
  - constructor.
  - pose proof (size_list_to_set_le l) as Hle.
    destruct (decide (x ∈ l)) as [Hin|Hnin].
    + exfalso.
      assert (Heq : ({[x]} ∪ list_to_set l : gset string) = list_to_set l).
      { apply leibniz_equiv. set_solver. }
      rewrite Heq in Hlen. lia.
    + constructor; [done|]. apply IH.
      rewrite size_union in Hlen by set_solver.
      rewrite size_singleton in Hlen. lia.
Qed.

Lemma person_users_ids (raw : list Fetch.raw_user) :
  map user_id (Fetch.person_users raw)
  = map Fetch.raw_id (List.filter is_person raw).
Proof.
  unfold Fetch.person_users. induction raw as [|r raw IH]; [done|].
  cbn [flat_map List.filter]. rewrite map_app, IH. unfold is_person at 2.
  by destruct (PyStr.eqb (Fetch.raw_object r) "user" && _).
Qed.

Lemma pages_person_ids (pages : list Fetch.response) :
  map user_id (flat_map (fun r => Fetch.person_users (Fetch.results r)) pages)
  = map Fetch.raw_id (List.filter is_person (flat_map Fetch.results pages)).
Proof.
  induction pages as [|r pages IH]; [done|].
  cbn [flat_map]. by rewrite map_app, List.filter_app, map_app, person_users_ids, IH.
Qed.

(** A fetch that returns has read good pages announcing more, up to a
    good page announcing no more, and returns the person users of these. *)
Lemma fetch_loop_returns (remote : list Fetch.response) :
  forall acc users : list user,
    Fetch.fetch_loop remote acc = Fetch.Returned users ->
    exists pages last rest,
      remote = pages ++ last :: rest
      /\ Forall (fun r => Fetch.status_code r = 200%nat
                          /\ Fetch.has_more r = true) pages
      /\ Fetch.status_code last = 200%nat
      /\ Fetch.has_more last = false
      /\ users
         = acc ++ flat_map (fun r => Fetch.person_users (Fetch.results r))
                    (pages ++ [last]).
Proof.
  induction remote as [|r remote IH]; intros acc users; cbn [Fetch.fetch_loop].
  - discriminate.
  - destruct (Fetch.status_code r =? 200)%nat eqn:Hst; [|discriminate].
    apply Nat.eqb_eq in Hst.
    destruct (Fetch.has_more r) eqn:Hmore.
    + intros (pages & last & rest & -> & Hall & Hl1 & Hl2 & ->)%IH.
      exists (r :: pages), last, rest. split; [done|].
      split; [by constructor|]. split; [done|]. split; [done|].
      cbn [app flat_map]. by rewrite app_assoc.
    + intros [= <-]. exists [], r, remote. split; [done|].
      split; [constructor|]. split; [done|]. split; [done|].
      cbn [app flat_map]. by rewrite app_nil_r.
Qed.

(** The converse: such a sequence of answers makes the loop return. *)
Lemma fetch_loop_reads_pages (pages : list Fetch.response) (last : Fetch.response)
    (rest : list Fetch.response) (acc : list user) :
  Forall (fun r => Fetch.status_code r = 200%nat /\ Fetch.has_more r = true) pages ->
  Fetch.status_code last = 200%nat ->
  Fetch.has_more last = false ->
  Fetch.fetch_loop (pages ++ last :: rest) acc
  = Fetch.Returned
      (acc ++ flat_map (fun r => Fetch.person_users (Fetch.results r))
                (pages ++ [last])).
Proof.
  intros Hpages Hst Hmore. revert acc.
  induction Hpages as [|r pages [Hr1 Hr2] _ IH]; intros acc.
  - cbn [app Fetch.fetch_loop flat_map]. rewrite Hst, Hmore.
    cbn [Nat.eqb]. by rewrite app_nil_r.
  - cbn [app Fetch.fetch_loop flat_map]. rewrite Hr1, Hr2. cbn [Nat.eqb].
    rewrite IH. by rewrite app_assoc.
Qed.

End FetchFacts.

(** C7, as amended.  [fetch_users_in_batches] does not deduplicate.  It
    returns exactly when it has a token and the remote answers 200 with
    more announced on every page up to a page that answers 200 with no
    more announced; what it returns is then the person users of these
    pages, page after page, so that the ids returned are the ids of the
    person entries delivered on these pages, in order and as many times
    as they were delivered. *)
Theorem fetch_keeps_every_occurrence
    (notion_token : option string) (remote : list Fetch.response)
    (users : list user) :
  Fetch.fetch_users_in_batches notion_token remote = Fetch.Returned users
  <->
  (exists t, notion_token = Some t /\ PyStr.truthy t = true)
  /\ exists pages last rest,
       remote = pages ++ last :: rest
       /\ Forall (fun r => Fetch.status_code r = 200%nat
                           /\ Fetch.has_more r = true) pages
       /\ Fetch.status_code last = 200%nat
       /\ Fetch.has_more last = false
       /\ users
          = flat_map (fun r => Fetch.person_users (Fetch.results r))
              (pages ++ [last])
       /\ map user_id users
          = map Fetch.raw_id
              (List.filter is_person (flat_map Fetch.results (pages ++ [last]))).
Proof.
  unfold Fetch.fetch_users_in_batches. split.
  - intros Hfetch. destruct notion_token as [[|c t]|]; try discriminate.
    split; [by eexists|].
    apply fetch_loop_returns in Hfetch
      as (pages & last & rest & -> & Hall & Hl1 & Hl2 & ->).
    exists pages, last, rest. cbn [app]. repeat (split; [done|]).
    apply pages_person_ids.
  - intros [(t & -> & Ht) (pages & last & rest & -> & Hall & Hl1 & Hl2 & -> & _)].
    destruct t as [|c t]; [discriminate|].
    by rewrite (fetch_loop_reads_pages pages last rest []).
Qed.

Lemma fetch_keeps_every_occurrence_witness :
  (exists t, Some "secret" = Some t /\ PyStr.truthy t = true)
  /\ exists pages last rest,
       [page1; page2] = pages ++ last :: rest
       /\ Forall (fun r => Fetch.status_code r = 200%nat
                           /\ Fetch.has_more r = true) pages
       /\ Fetch.status_code last = 200%nat
       /\ Fetch.has_more last = false
       /\ flat_map (fun r => Fetch.person_users (Fetch.results r)) [page1; page2]
          = flat_map (fun r => Fetch.person_users (Fetch.results r))
              (pages ++ [last])
       /\ map user_id
            (flat_map (fun r => Fetch.person_users (Fetch.results r)) [page1; page2])
          = map Fetch.raw_id
              (List.filter is_person (flat_map Fetch.results (pages ++ [last]))).
Proof.
  apply (proj1 (fetch_keeps_every_occurrence (Some "secret") [page1; page2] _)).
  vm_compute. reflexivity.
Defined.

(** C7 as stated fails: the user "a" is on both pages and is returned
    twice. *)
Lemma fetch_returns_duplicate_ids :
  (exists users,
     Fetch.fetch_users_in_batches (Some "secret") [page1; page2]
       = Fetch.Returned users
     /\ map user_id users = ["a"; "a"; "c"]
     /\ ~ NoDup (map user_id users)).
Proof.
  eexists. split; [vm_compute; reflexivity|].
  split; [reflexivity|].
  cbn. intros H. apply NoDup_cons in H as [H _]. apply H. by left.
Qed.

(** ** No subscript is out of range *)

Section NoRaise.

Lemma item_first {A : Type} (x : A) (l : list A) : Checked.item (x :: l) 0 = Some x.
Proof. reflexivity. Qed.

Lemma nth_error_last {A : Type} (d : A) (l : list A) (x : A) :
  nth_error (x :: l) (length l) = Some (List.last (x :: l) d).
Proof.
  revert x. induction l as [|y l IH]; intros x; [done|].
  cbn [length nth_error]. rewrite IH. reflexivity.
Qed.

Lemma item_last (x : string) (l : list string) :
  Checked.item (x :: l) (-1) = Some (PyStr.last_part (x :: l)).
Proof.
  unfold Checked.item, PyStr.last_part. cbn [Z.leb Z.compare].
  rewrite (proj2 (Z.leb_le 0 _)) by (cbn [length]; lia).
  replace (Z.to_nat (Z.of_nat (length (x :: l)) + -1)) with (length l)
    by (cbn [length]; lia).
  apply nth_error_last.
Qed.

Lemma checked_initials (parts : list string) :
  Checked.initials parts = Some (PyStr.initials parts).
Proof.
  induction parts as [|p rest IH]; [done|].
  cbn [Checked.initials PyStr.initials]. destruct p as [|c p']; cbn; [done|].
  by rewrite IH.
Qed.

Lemma checked_register_user (mapping : gmap string string) (u : user) :
  Checked.register_user mapping u = Some (register_user mapping u).
Proof.
  unfold Checked.register_user, register_user.
  destruct (PyStr.truthy _); [|done].
  destruct (PyStr.split _) as [|p0 ps]; [done|].
  rewrite item_first, item_last, checked_initials. cbn [mbind option_bind].
  unfold first_last_key. cbn [List.hd].
  destruct (1 <? _)%nat; cbn [mbind option_bind];
    by destruct (2 <=? _)%nat.
Qed.

Lemma checked_build_name_mapping (users : list user) (mapping : gmap string string) :
  Checked.build_name_mapping users mapping
  = Some (build_name_mapping users mapping).
Proof.
  rewrite build_name_mapping_fold. unfold Checked.build_name_mapping.
  revert mapping. induction users as [|u users IH]; intros mapping; [done|].
  cbn [fold_left mbind option_bind]. rewrite checked_register_user. apply IH.
Qed.

Lemma checked_match_score (search_lower user_name : string) :
  Checked.match_score search_lower user_name
  = Some (match_score search_lower user_name).
Proof.
  unfold Checked.match_score, match_score, match_scores, Checked.max_of.
  rewrite checked_initials.
  destruct (PyStr.split user_name) as [|p0 ps]; [done|].
  rewrite item_first, item_last. cbn [mbind option_bind].
  by destruct (1 <? _)%nat.
Qed.

Lemma checked_suggestion_score (partial_lower user_name : string) :
  Checked.suggestion_score partial_lower user_name
  = Some (suggestion_score partial_lower user_name).
Proof.
  unfold Checked.suggestion_score, suggestion_score.
  destruct (PyStr.split user_name) as [|p0 ps]; [done|].
  rewrite item_first, item_last. cbn [mbind option_bind].
  by destruct (1 <? _)%nat.
Qed.

End NoRaise.

(** ** Members without a name *)

Section Nameless.

Lemma register_user_nameless (m : gmap string string) (u : user) :
  named u = false -> register_user m u = m.
Proof. unfold named, register_user. by intros ->. Qed.

Lemma fold_register_named (users : list user) (m : gmap string string) :
  fold_left register_user users m
  = fold_left register_user (List.filter named users) m.
Proof.
  revert m. induction users as [|u users IH]; intros m; [done|].
  cbn [fold_left List.filter]. destruct (named u) eqn:Hn.
  - cbn [fold_left]. apply IH.
  - rewrite register_user_nameless by done. apply IH.
Qed.

Lemma build_name_mapping_named (users : list user) (m : gmap string string) :
  build_name_mapping users m = build_name_mapping (List.filter named users) m.
Proof. rewrite !build_name_mapping_fold. apply fold_register_named. Qed.

Lemma fuzzy_loop_named (sl : string) (users : list user) :
  fuzzy_loop sl users = fuzzy_loop sl (List.filter named users).
Proof.
  unfold fuzzy_loop. generalize (@None user, 0) as st.
  induction users as [|u users IH]; intros st; [done|].
  cbn [fold_left List.filter]. destruct (named u) eqn:Hn.
  - cbn [fold_left]. apply IH.
  - rewrite IH. f_equal. unfold fuzzy_step. fold (named u). by rewrite Hn.
Qed.

Lemma fuzzy_match_named (sl : string) (users : list user) :
  fuzzy_match sl users = fuzzy_match sl (List.filter named users).
Proof. unfold fuzzy_match. by rewrite fuzzy_loop_named. Qed.

Lemma candidates_named (pl : string) (users : list user) :
  candidates pl users = candidates pl (List.filter named users).
Proof.
  induction users as [|u users IH]; [done|].
  cbn [candidates flat_map List.filter]. fold (candidates pl users).
  fold (named u). destruct (named u) eqn:Hn.
  - cbn [flat_map]. fold (candidates pl (List.filter named users)).
    fold (named u). rewrite Hn. by rewrite IH.
  - cbn [negb app]. exact IH.
Qed.

Lemma registers_named (k : string) (u : user) :
  registers k u = true -> named u = true.
Proof.
  unfold registers, keys_of, named.
  destruct (PyStr.truthy _); [done|].
  intros H%bool_decide_eq_true_1. by apply elem_of_nil in H.
Qed.

(** An id found in the index is the id of a named user of the list. *)
Lemma indexed_id_named (users : list user) (k uid : string) :
  user_name_mapping (load users) !! k = Some uid ->
  exists u, In u (List.filter named users) /\ user_id u = uid.
Proof.
  cbn [load user_name_mapping].
  intros [H|(u & Hin & Hk & ->)]%lookup_build_Some; [by rewrite lookup_empty in H|].
  exists u. split; [|done]. apply filter_In. split; [done|].
  by apply registers_named in Hk.
Qed.

Lemma user_with_id_unique (users : list user) (u : user) :
  NoDup (map user_id users) -> In u users ->
  user_with_id users (user_id u) = Some u.
Proof.
  intros Hnd Hin. destruct (user_with_id_In _ _ Hin) as (u' & Hf & Hid).
  rewrite Hf. f_equal.
  apply find_some in Hf as [Hin' _].
  revert Hnd Hin Hin' Hid. clear. induction users as [|x xs IH]; [done|].
  cbn [map]. intros [Hx Hnd]%NoDup_cons [->|Hin] [->|Hin'] Hid; auto.
  - exfalso. apply Hx. rewrite <- Hid. apply list_elem_of_In.
    by apply in_map.
  - exfalso. apply Hx. rewrite Hid. apply list_elem_of_In.
    by apply in_map.
Qed.

Lemma NoDup_filter_ids (users : list user) :
  NoDup (map user_id users) -> NoDup (map user_id (List.filter named users)).
Proof.
  induction users as [|u users IH]; [done|].
  cbn [map List.filter]. intros [Hu Hnd]%NoDup_cons.
  destruct (named u); [|by apply IH].
  cbn [map]. apply NoDup_cons. split; [|by apply IH].
  intros Hin. apply Hu. apply list_elem_of_In in Hin.
  apply in_map_iff in Hin as (x & Hx & Hin). apply filter_In in Hin as [Hin _].
  apply list_elem_of_In. rewrite <- Hx. by apply in_map.
Qed.

(** Entries without a name are passed over by the id lookup when none of
    them carries the id looked for. *)
Lemma user_with_id_filter (users : list user) (uid : string) :
  (forall g, In g users -> named g = false -> user_id g <> uid) ->
  user_with_id users uid = user_with_id (List.filter named users) uid.
Proof.
  unfold user_with_id. induction users as [|a users IH]; intros H; [done|].
  cbn [List.find List.filter].
  assert (IH' : List.find (fun u => PyStr.eqb (user_id u) uid) users
                = List.find (fun u => PyStr.eqb (user_id u) uid)
                    (List.filter named users)).
  { apply IH. intros g Hg. apply H. by right. }
  destruct (named a) eqn:Ha.
  - cbn [List.find]. by rewrite IH'.
  - unfold PyStr.eqb at 1. rewrite bool_decide_eq_false_2; [exact IH'|].
    apply H; [by left | done].
Qed.

(** In a directory of named members only, what is found is named. *)
Lemma find_among_named (users : list user) (q : string) (m : user) :
  Forall (fun u => named u = true) users ->
  find_user_by_name (load users) q = Some m -> named m = true.
Proof.
  intros Hall. rewrite List.Forall_forall in Hall. unfold find_user_by_name.
  destruct (negb (PyStr.truthy q) || _); [discriminate|].
  cbn [workspace_users load].
  destruct (user_name_mapping (load users) !! _) as [uid|].
  - unfold user_with_id. intros [Hin _]%find_some. by apply Hall.
  - unfold fuzzy_match.
    pose proof (fuzzy_loop_inv (PyStr.lower (PyStr.strip q)) users) as Hinv.
    destruct (fuzzy_loop _ users) as [[m'|] bs]; [|discriminate].
    destruct Hinv as (_ & Hm & _). destruct (Qleb 0.6 bs); [|discriminate].
    by intros [= <-].
Qed.

(** [find_user_by_name] on a directory and on its named members: the
    two results are related as soon as the two id lookups are. *)
Lemma find_user_by_name_named
    (same : option user -> option user -> Prop) (users : list user) (q : string) :
  (forall o, same o o) ->
  (forall uid,
     user_name_mapping (load users) !! normalize q = Some uid ->
     same (user_with_id users uid)
          (user_with_id (List.filter named users) uid)) ->
  same (find_user_by_name (load users) q)
       (find_user_by_name (load (List.filter named users)) q).
Proof.
  intros Hrefl Hexact. unfold find_user_by_name.
  cbn [workspace_users user_name_mapping load] in *.
  rewrite <- build_name_mapping_named.
  destruct (PyStr.truthy q); cbn [negb orb]; [|apply Hrefl].
  fold (normalize q).
  pose proof (indexed_id_named users (normalize q)) as Hidx.
  cbn [workspace_users user_name_mapping load] in Hidx.
  pose proof (fuzzy_match_named (normalize q) users) as Hfz.
  remember (List.filter named users) as kept eqn:Ek.
  destruct users as [|u0 us]; [cbn in Ek; subst kept; apply Hrefl|].
  remember (u0 :: us) as users eqn:Eu.
  destruct (build_name_mapping users ∅ !! normalize q) as [uid|] eqn:Hk.
  - destruct (Hidx uid eq_refl) as (u & Hu & _).
    destruct kept as [|k0 ks]; [destruct Hu|]. by apply Hexact.
  - rewrite Hfz. destruct kept as [|k0 ks]; apply Hrefl.
Qed.

End Nameless.

(** C9, as amended.  No round of the three loops raises, whatever the
    names are: every subscript is in range, so index build, scoring for a
    match and scoring for a suggestion return.  A member whose name is
    empty or blank takes no part in them: the index, the resolved id and
    the suggestions are those of the directory without such members, and
    the fuzzy path and the suggestions never yield such a member.  When
    no entry without a name carries the id of a named member, the user
    object [find_user_by_name] returns is that of the directory without
    such members as well, and so is never an entry without a name. *)
Theorem nameless_members_are_skipped
    (users : list user) (mapping : gmap string string)
    (q partial : string) (limit : Z) :
  Checked.build_name_mapping users mapping
    = Some (build_name_mapping users mapping)
  /\ (forall u, Checked.match_score (normalize q) (PyStr.strip (user_name u))
                = Some (score_of q u))
  /\ (forall u, Checked.suggestion_score (normalize partial)
                  (PyStr.strip (user_name u))
                = Some (relevance partial u))
  /\ build_name_mapping users mapping
     = build_name_mapping (List.filter named users) mapping
  /\ get_user_id_by_name (load users) q
     = get_user_id_by_name (load (List.filter named users)) q
  /\ get_name_suggestions (load users) partial limit
     = get_name_suggestions (load (List.filter named users)) partial limit
  /\ (forall u, fuzzy_match (normalize q) users = Some u -> named u = true)
  /\ (forall s, In s (get_name_suggestions (load users) partial limit) ->
        named (sug_user s) = true)
  /\ (no_nameless_twin users ->
      find_user_by_name (load users) q
      = find_user_by_name (load (List.filter named users)) q
      /\ forall m, find_user_by_name (load users) q = Some m -> named m = true).
Proof.
  split; [apply checked_build_name_mapping|].
  split; [intros u; apply checked_match_score|].
  split; [intros u; apply checked_suggestion_score|].
  split; [apply build_name_mapping_named|].
  split; [|split; [|split; [|split]]].
  - unfold get_user_id_by_name.
    apply (find_user_by_name_named (fun o1 o2 =>
      match o1 with Some u => Some (user_id u) | None => None end
      = match o2 with Some u => Some (user_id u) | None => None end)); [done|].
    intros uid Hk.
    destruct (indexed_id_named _ _ _ Hk) as (u & Hu & <-).
    destruct (user_with_id_In _ u Hu) as (u1 & -> & ->).
    apply filter_In in Hu as [Hu _].
    by destruct (user_with_id_In users u Hu) as (u2 & -> & ->).
  - unfold get_name_suggestions. cbn [workspace_users load].
    destruct (PyStr.truthy partial); cbn [negb orb]; [|done].
    rewrite (candidates_named _ users).
    destruct users as [|u0 us]; [done|].
    destruct (List.filter named (u0 :: us)) as [|k0 ks]; [|done].
    cbn [candidates flat_map sort_desc]. unfold slice_to.
    destruct (0 <=? limit)%Z; by rewrite firstn_nil.
  - intros u. unfold fuzzy_match.
    pose proof (fuzzy_loop_inv (normalize q) users) as Hinv.
    destruct (fuzzy_loop (normalize q) users) as [[m|] bs]; [|done].
    destruct Hinv as (_ & Hm & _). destruct (Qleb 0.6 bs); [|done].
    by intros [= <-].
  - intros s. unfold get_name_suggestions.
    destruct (negb (PyStr.truthy partial) || _); [intros []|].
    intros Hs%In_slice_to.
    apply (Permutation_in _ (sort_desc_perm _)) in Hs.
    by apply In_candidates in Hs as (u & _ & Hn & -> & _).
  - intros Htwin.
    assert (Heq : find_user_by_name (load users) q
                  = find_user_by_name (load (List.filter named users)) q).
    { apply (find_user_by_name_named eq); [done|].
      intros uid Hk.
      destruct (indexed_id_named _ _ _ Hk) as (u & Hu & <-).
      apply filter_In in Hu as [Hu Hn].
      apply user_with_id_filter. intros g Hg Hng. by apply Htwin. }
    split; [exact Heq|]. intros m. rewrite Heq.
    apply find_among_named, List.Forall_forall.
    by intros u [_ Hu]%filter_In.
Qed.

Lemma nameless_members_are_skipped_witness :
  find_user_by_name (load [nameless; dinesh; divya]) "Dines"
  = find_user_by_name (load (List.filter named [nameless; dinesh; divya])) "Dines"
  /\ forall m,
       find_user_by_name (load [nameless; dinesh; divya]) "Dines" = Some m ->
       named m = true.
Proof.
  refine (proj2 (proj2 (proj2 (proj2 (proj2 (proj2 (proj2 (proj2
    (nameless_members_are_skipped [nameless; dinesh; divya] ∅ "Dines" "Di" 5))))))))
    _).
  intros g u Hg Hu Hng Hnu. cbn [In] in Hg, Hu.
  destruct Hg as [<-|[<-|[<-|[]]]]; vm_compute in Hng; try discriminate;
    destruct Hu as [<-|[<-|[<-|[]]]]; vm_compute in Hnu; try discriminate;
    vm_compute; discriminate.
Defined.

(** C9 as stated fails: an entry without a name that carries the id of a
    named member is what an exact hit returns when it stands first. *)
Lemma nameless_twin_is_returned :
  named ghost = false
  /\ find_user_by_name (load [ghost; dinesh]) "Dinesh" = Some ghost
  /\ find_user_by_name (load (List.filter named [ghost; dinesh])) "Dinesh"
     = Some dinesh.
Proof. repeat split; vm_compute; reflexivity. Qed.

(* ===================================================================== *)
(** * Further properties *)
(* ===================================================================== *)

(** ** Normal forms of strings *)

Section NormalForms.

Lemma lower_char_idem (c : ascii) :
  PyStr.lower_char (PyStr.lower_char c) = PyStr.lower_char c.
Proof.
  destruct c as [b0 b1 b2 b3 b4 b5 b6 b7].
  destruct b0, b1, b2, b3, b4, b5, b6, b7; vm_compute; reflexivity.
Qed.

Lemma is_space_lower_char (c : ascii) :
  PyStr.is_space (PyStr.lower_char c) = PyStr.is_space c.
Proof.
  destruct c as [b0 b1 b2 b3 b4 b5 b6 b7].
  destruct b0, b1, b2, b3, b4, b5, b6, b7; vm_compute; reflexivity.
Qed.

Lemma lower_idem (s : string) : PyStr.lower (PyStr.lower s) = PyStr.lower s.
Proof.
  induction s as [|c s IH]; [done|]. cbn [PyStr.lower].
  by rewrite lower_char_idem, IH.
Qed.

Lemma append_cons (c : ascii) (s t : string) :
  (String c s ++ t)%string = String c (s ++ t).
Proof. reflexivity. Qed.

Lemma lower_app (s t : string) :
  PyStr.lower (s ++ t) = (PyStr.lower s ++ PyStr.lower t)%string.
Proof.
  induction s as [|c s IH]; [done|].
  rewrite append_cons. cbn [PyStr.lower]. by rewrite append_cons, IH.
Qed.

Lemma lstrip_lower (s : string) :
  PyStr.lstrip (PyStr.lower s) = PyStr.lower (PyStr.lstrip s).
Proof.
  induction s as [|c s IH]; [done|]. cbn [PyStr.lower PyStr.lstrip].
  rewrite is_space_lower_char. by destruct (PyStr.is_space c).
Qed.

Lemma rstrip_lower (s : string) :
  PyStr.rstrip (PyStr.lower s) = PyStr.lower (PyStr.rstrip s).
Proof.
  induction s as [|c s IH]; [done|]. cbn [PyStr.lower PyStr.rstrip].
  rewrite IH, is_space_lower_char.
  destruct (PyStr.rstrip s); cbn [PyStr.lower]; [|done].
  by destruct (PyStr.is_space c).
Qed.

Lemma strip_lower (s : string) :
  PyStr.strip (PyStr.lower s) = PyStr.lower (PyStr.strip s).
Proof. unfold PyStr.strip. by rewrite lstrip_lower, rstrip_lower. Qed.

Lemma rstrip_idem (s : string) : PyStr.rstrip (PyStr.rstrip s) = PyStr.rstrip s.
Proof.
  induction s as [|c s IH]; [done|]. cbn [PyStr.rstrip].
  destruct (PyStr.rstrip s) as [|d r] eqn:Hr.
  - destruct (PyStr.is_space c) eqn:Hc; [done|]. cbn. by rewrite Hc.
  - cbn [PyStr.rstrip]. cbn [PyStr.rstrip] in IH. by rewrite IH.
Qed.

(** What [lstrip] returns is empty or begins with a character that is not
    white space. *)
Lemma lstrip_head (s : string) :
  match PyStr.lstrip s with
  | EmptyString => True
  | String c _ => PyStr.is_space c = false
  end.
Proof.
  induction s as [|c s IH]; [done|]. cbn [PyStr.lstrip].
  destruct (PyStr.is_space c) eqn:Hc; [exact IH | exact Hc].
Qed.

Lemma rstrip_head (c : ascii) (s : string) :
  PyStr.is_space c = false ->
  exists r, PyStr.rstrip (String c s) = String c r.
Proof.
  intros Hc. cbn [PyStr.rstrip]. rewrite Hc.
  destruct (PyStr.rstrip s); eauto.
Qed.

Lemma strip_head (s : string) :
  match PyStr.strip s with
  | EmptyString => True
  | String c _ => PyStr.is_space c = false
  end.
Proof.
  unfold PyStr.strip. pose proof (lstrip_head s) as H.
  destruct (PyStr.lstrip s) as [|c r]; [done|].
  destruct (rstrip_head c r H) as [r' ->]. exact H.
Qed.

Lemma lstrip_clean (c : ascii) (s : string) :
  PyStr.is_space c = false -> PyStr.lstrip (String c s) = String c s.
Proof. intros Hc. cbn. by rewrite Hc. Qed.

(** [strip] is idempotent. *)
Lemma strip_idem (s : string) : PyStr.strip (PyStr.strip s) = PyStr.strip s.
Proof.
  pose proof (strip_head s) as H. unfold PyStr.strip at 1.
  destruct (PyStr.strip s) as [|c r] eqn:Hs; [done|].
  rewrite lstrip_clean by done. rewrite <- Hs. unfold PyStr.strip.
  apply rstrip_idem.
Qed.

Lemma rstrip_no_space (s : string) : no_space s = true -> PyStr.rstrip s = s.
Proof.
  induction s as [|c s IH]; [done|]. cbn [no_space PyStr.rstrip].
  intros [Hc Hs]%andb_true_iff. rewrite IH by done.
  apply negb_true_iff in Hc. rewrite Hc. by destruct s.
Qed.

Lemma strip_no_space (s : string) : no_space s = true -> PyStr.strip s = s.
Proof.
  intros H. unfold PyStr.strip. destruct s as [|c s]; [done|].
  pose proof H as H'. cbn [no_space] in H'.
  apply andb_true_iff in H' as [Hc%negb_true_iff _].
  rewrite lstrip_clean by done. by apply rstrip_no_space.
Qed.

Lemma no_space_app (s t : string) :
  no_space (s ++ t) = no_space s && no_space t.
Proof.
  induction s as [|c s IH]; [done|].
  rewrite append_cons. cbn [no_space]. rewrite IH. by rewrite andb_assoc.
Qed.

Lemma no_space_lower (s : string) : no_space (PyStr.lower s) = no_space s.
Proof.
  induction s as [|c s IH]; [done|].
  cbn [PyStr.lower no_space]. by rewrite is_space_lower_char, IH.
Qed.

(** The tokens [split] returns hold no white space. *)
Lemma split_from_no_space (s cur : string) :
  no_space cur = true ->
  Forall (fun t => no_space t = true) (PyStr.split_from cur s).
Proof.
  revert cur. induction s as [|c s IH]; intros cur Hcur; cbn [PyStr.split_from].
  - destruct cur; repeat constructor. exact Hcur.
  - destruct (PyStr.is_space c) eqn:Hc.
    + destruct cur; [by apply IH|]. constructor; [exact Hcur | by apply IH].
    + apply IH. rewrite no_space_app, Hcur. cbn. by rewrite Hc.
Qed.

Lemma split_no_space (s : string) :
  Forall (fun t => no_space t = true) (PyStr.split s).
Proof. by apply split_from_no_space. Qed.

Lemma rstrip_app_clean (s t : string) :
  t <> EmptyString -> PyStr.rstrip t = t ->
  PyStr.rstrip (s ++ t) = (s ++ t)%string.
Proof.
  intros Ht Hr. induction s as [|c s IH]; [exact Hr|].
  rewrite append_cons. cbn [PyStr.rstrip]. rewrite IH.
  destruct (s ++ t)%string eqn:E; [|done].
  destruct s; [by subst | by rewrite append_cons in E].
Qed.

Lemma initials_no_space (parts : list string) :
  Forall (fun t => no_space t = true) parts ->
  no_space (PyStr.initials parts) = true.
Proof.
  induction 1 as [|p ps Hp Hps IH]; [done|].
  destruct p as [|c p']; cbn [PyStr.initials]; [exact IH|].
  cbn [no_space] in *. apply andb_true_iff in Hp as [Hc _].
  by rewrite is_space_lower_char, Hc, IH.
Qed.

Lemma initials_lower (parts : list string) :
  PyStr.lower (PyStr.initials parts) = PyStr.initials parts.
Proof.
  induction parts as [|p ps IH]; [done|].
  destruct p as [|c p']; cbn [PyStr.initials PyStr.lower]; [exact IH|].
  by rewrite lower_char_idem, IH.
Qed.

End NormalForms.

(** ** The index and its keys *)

Section IndexKeys.

Lemma normalize_lower_no_space (t : string) :
  no_space t = true -> normalize (PyStr.lower t) = PyStr.lower t.
Proof.
  intros Ht. unfold normalize.
  rewrite strip_no_space by (by rewrite no_space_lower). apply lower_idem.
Qed.

Lemma normalize_full_name (s : string) :
  normalize (PyStr.lower (PyStr.strip s)) = PyStr.lower (PyStr.strip s).
Proof. unfold normalize. by rewrite strip_lower, strip_idem, lower_idem. Qed.

Lemma no_space_head (t : string) :
  no_space t = true -> PyStr.truthy t = true ->
  exists c r, t = String c r /\ PyStr.is_space c = false.
Proof.
  destruct t as [|c r]; [discriminate|]. cbn [no_space].
  intros [Hc%negb_true_iff _]%andb_true_iff _. eauto.
Qed.

Lemma normalize_first_last (p0 pl : string) :
  no_space p0 = true -> PyStr.truthy p0 = true ->
  no_space pl = true -> PyStr.truthy pl = true ->
  normalize (PyStr.lower p0 ++ " " ++ PyStr.lower pl)
  = (PyStr.lower p0 ++ " " ++ PyStr.lower pl)%string.
Proof.
  intros H0 T0 Hl Tl. unfold normalize.
  assert (Hstrip : PyStr.strip (PyStr.lower p0 ++ " " ++ PyStr.lower pl)
                   = (PyStr.lower p0 ++ " " ++ PyStr.lower pl)%string).
  { unfold PyStr.strip.
    destruct (no_space_head (PyStr.lower p0)) as (c & r & E & Hc);
      [by rewrite no_space_lower | by rewrite lower_truthy |].
    rewrite E, append_cons, lstrip_clean by done. rewrite <- append_cons, <- E.
    apply rstrip_app_clean; [done|].
    change (" " ++ PyStr.lower pl)%string with (String " " (PyStr.lower pl)).
    cbn [PyStr.rstrip].
    rewrite rstrip_no_space by (by rewrite no_space_lower).
    destruct (PyStr.lower pl) eqn:E'; [|done].
    by rewrite <- lower_truthy, E' in Tl. }
  rewrite Hstrip, !lower_app, !lower_idem. reflexivity.
Qed.

Lemma hd_last_interior (p0 : string) (ps : list string) (t : string) :
  In t (p0 :: ps) ->
  t = p0
  \/ (ps <> [] /\ t = PyStr.last_part (p0 :: ps))
  \/ In t (PyStr.interior (p0 :: ps)).
Proof.
  unfold PyStr.last_part, PyStr.interior. cbn [List.tl].
  intros [->|Hin]; [by left|]. right.
  induction ps as [|x ps IH]; [destruct Hin|].
  destruct ps as [|y ps'].
  - destruct Hin as [->|[]]. left. by split.
  - destruct Hin as [->|Hin].
    + right. by left.
    + destruct (IH Hin) as [[_ ->]|Hint].
      * left. by split.
      * right. right. exact Hint.
Qed.

(** Every key a member registers is in normal form. *)
Lemma keys_normal (u : user) (k : string) :
  registers k u = true -> normalize k = k.
Proof.
  unfold registers, keys_of. intros Hk%bool_decide_eq_true_1.
  destruct (PyStr.truthy (PyStr.strip (user_name u))) eqn:Hn;
    [|by apply elem_of_nil in Hk].
  pose proof (split_no_space (PyStr.strip (user_name u))) as Hns.
  pose proof (split_truthy (PyStr.strip (user_name u))) as Htr.
  apply list_elem_of_In in Hk. destruct Hk as [<-|Hk]; [apply normalize_full_name|].
  destruct (PyStr.split (PyStr.strip (user_name u))) as [|p0 ps] eqn:Hs;
    [destruct Hk|].
  rewrite List.Forall_forall in Hns, Htr.
  assert (Hlast : In (PyStr.last_part (p0 :: ps)) (p0 :: ps)) by apply last_part_In.
  destruct Hk as [<-|Hk].
  { apply normalize_lower_no_space, Hns. by left. }
  apply in_app_or in Hk as [Hk|Hk].
  { destruct (1 <? _)%nat; [|destruct Hk]. destruct Hk as [<-|[]].
    by apply normalize_lower_no_space, Hns. }
  apply in_app_or in Hk as [Hk|Hk].
  { apply in_map_iff in Hk as (x & <- & Hx). apply filter_In in Hx as [Hx _].
    apply normalize_lower_no_space, Hns.
    unfold PyStr.interior in Hx. cbn [List.tl] in Hx.
    right. clear -Hx. induction ps as [|y ps IH]; [destruct Hx|].
    destruct ps as [|z ps']; [destruct Hx|].
    destruct Hx as [->|Hx]; [by left | right; by apply IH]. }
  destruct (2 <=? _)%nat; [|destruct Hk]. destruct Hk as [<-|[<-|[]]].
  - unfold first_last_key. cbn [List.hd].
    apply normalize_first_last;
      [apply Hns; by left | apply Htr; by left
      | apply Hns; exact Hlast | apply Htr; exact Hlast].
  - unfold normalize.
    rewrite strip_no_space, initials_lower; [done|].
    apply initials_no_space, List.Forall_forall, Hns.
Qed.

(** Every token of a named member's name is one of its keys. *)
Lemma token_registered (u : user) (t : string) :
  In t (tokens u) -> registers (PyStr.lower t) u = true.
Proof.
  intros Hin. pose proof (tokens_named u) as Hn.
  unfold registers, keys_of. apply bool_decide_eq_true_2.
  unfold named in Hn. rewrite Hn by (destruct (tokens u); [destruct Hin | cbn; lia]).
  pose proof (split_truthy (PyStr.strip (user_name u))) as Htr.
  rewrite List.Forall_forall in Htr. specialize (Htr t Hin).
  unfold tokens in Hin.
  destruct (PyStr.split (PyStr.strip (user_name u))) as [|p0 ps]; [destruct Hin|].
  apply list_elem_of_In. right.
  destruct (hd_last_interior p0 ps t Hin) as [->|[[Hps ->]|Hint]].
  - by left.
  - right. apply in_or_app. left.
    destruct ps as [|x ps']; [done|]. by left.
  - right. apply in_or_app. right. apply in_or_app. left.
    apply in_map. by apply filter_In.
Qed.

(** A key some member registers is in the index, owned by a member that
    registers it. *)
Lemma lookup_build_registered (users : list user) (m : gmap string string)
    (k : string) :
  (exists u, In u users /\ registers k u = true) ->
  exists u, In u users /\ registers k u = true
            /\ build_name_mapping users m !! k = Some (user_id u).
Proof.
  rewrite build_name_mapping_fold. revert m.
  induction users as [|x users IH] using rev_ind; intros m (u & Hu & Hk);
    [destruct Hu|].
  rewrite fold_left_app. cbn [fold_left]. rewrite lookup_register_user.
  destruct (registers k x) eqn:Hx.
  - exists x. split; [apply in_or_app; right; by left | done].
  - apply in_app_or in Hu as [Hu|[->|[]]]; [|congruence].
    destruct (IH m (ex_intro _ u (conj Hu Hk))) as (u' & Hu' & Hk' & Hl).
    exists u'. split; [apply in_or_app; by left | done].
Qed.

End IndexKeys.

(** X1.  Every key of the index is non-empty and in normal form (trimmed
    and lower-cased), its value is the id of a named member of the
    directory, and resolving the key itself returns that id. *)
Theorem index_entries_resolve (users : list user) (k v : string) :
  user_name_mapping (load users) !! k = Some v ->
  k <> EmptyString
  /\ normalize k = k
  /\ (exists u, In u users /\ named u = true /\ user_id u = v)
  /\ get_user_id_by_name (load users) k = Some v.
Proof.
  intros Hk. pose proof Hk as Hk'. cbn [load user_name_mapping] in Hk'.
  apply lookup_build_Some in Hk' as [Hk'|(u & Hu & Hr & ->)];
    [by rewrite lookup_empty in Hk'|].
  assert (Hne : k <> EmptyString).
  { intros ->. by rewrite registers_empty in Hr. }
  pose proof (keys_normal u k Hr) as Hnorm.
  split; [exact Hne|]. split; [exact Hnorm|]. split.
  - exists u. split; [done|]. split; [by apply registers_named in Hr | done].
  - apply resolve_exact; [done | by destruct k | by rewrite Hnorm].
Qed.

Lemma index_entries_resolve_witness :
  "dk" <> EmptyString
  /\ normalize "dk" = "dk"
  /\ (exists u, In u [dinesh; divya] /\ named u = true /\ user_id u = "u2")
  /\ get_user_id_by_name (load [dinesh; divya]) "dk" = Some "u2".
Proof.
  apply (index_entries_resolve [dinesh; divya] "dk" "u2").
  vm_compute. reflexivity.
Defined.

(** X2.  Whatever [get_user_id_by_name] returns is the id of a named
    member of the directory. *)
Theorem resolved_id_is_member (users : list user) (q uid : string) :
  get_user_id_by_name (load users) q = Some uid ->
  exists u, In u users /\ named u = true /\ user_id u = uid.
Proof.
  unfold get_user_id_by_name, find_user_by_name.
  destruct (negb (PyStr.truthy q) || _); [discriminate|].
  fold (normalize q).
  destruct (user_name_mapping (load users) !! normalize q) as [v|] eqn:Hk.
  - cbn [workspace_users load].
    destruct (indexed_id_named _ _ _ Hk) as (u & Hu & Hid).
    apply filter_In in Hu as [Hu Hn].
    destruct (user_with_id_In users u Hu) as (u' & Hf & Hid').
    rewrite Hid in Hf. rewrite Hf. intros [= <-].
    exists u. split; [done|]. split; [done|]. congruence.
  - cbn [workspace_users load]. unfold fuzzy_match.
    pose proof (fuzzy_loop_inv (normalize q) users) as Hinv.
    destruct (fuzzy_loop (normalize q) users) as [[m|] bs]; [|discriminate].
    destruct Hinv as (_ & Hm & _ & l1 & l2 & -> & _).
    destruct (Qleb 0.6 bs); [|discriminate]. intros [= <-].
    exists m. split; [apply in_elt | done].
Qed.

Lemma resolved_id_is_member_witness :
  exists u, In u [dinesh; divya] /\ named u = true /\ user_id u = "u1".
Proof.
  apply (resolved_id_is_member [dinesh; divya] "Dines" "u1").
  vm_compute. reflexivity.
Defined.

(** X3.  Every token of a named member's name resolves through the index
    to a member that has the same token (lower-cased) among its keys. *)
Theorem name_tokens_resolve (users : list user) (m : user) (t : string) :
  In m users ->
  In t (tokens m) ->
  exists u, In u users
    /\ registers (PyStr.lower t) u = true
    /\ user_name_mapping (load users) !! normalize t = Some (user_id u)
    /\ get_user_id_by_name (load users) t = Some (user_id u).
Proof.
  intros Hm Ht.
  assert (Hns : no_space t = true).
  { pose proof (split_no_space (PyStr.strip (user_name m))) as H.
    rewrite List.Forall_forall in H. by apply H. }
  assert (Htr : PyStr.truthy t = true).
  { pose proof (split_truthy (PyStr.strip (user_name m))) as H.
    rewrite List.Forall_forall in H. by apply H. }
  assert (Hnorm : normalize t = PyStr.lower t).
  { unfold normalize. by rewrite strip_no_space. }
  destruct (lookup_build_registered users ∅ (PyStr.lower t)) as (u & Hu & Hr & Hl).
  { exists m. split; [done|]. by apply token_registered. }
  exists u. split; [done|]. split; [done|].
  assert (Hk : user_name_mapping (load users) !! normalize t = Some (user_id u)).
  { rewrite Hnorm. exact Hl. }
  split; [exact Hk|]. by apply resolve_exact.
Qed.

Lemma name_tokens_resolve_witness :
  exists u, In u [dinesh; divya]
    /\ registers (PyStr.lower "Kumar") u = true
    /\ user_name_mapping (load [dinesh; divya]) !! normalize "Kumar"
       = Some (user_id u)
    /\ get_user_id_by_name (load [dinesh; divya]) "Kumar" = Some (user_id u).
Proof.
  apply (name_tokens_resolve [dinesh; divya] dinesh "Kumar").
  - by left.
  - vm_compute. right. by left.
Defined.

(** ** Queries contained in a name *)

Lemma match_score_substring (sl name : string) :
  PyStr.contains (PyStr.lower name) sl = true -> 0.8 <= match_score sl name.
Proof.
  intros H. unfold match_score, match_scores. apply py_max_ge.
  rewrite H. cbn [orb]. by left.
Qed.

Lemma user_with_id_found (users : list user) (uid : string) (k : string) :
  user_name_mapping (load users) !! k = Some uid ->
  exists u, user_with_id users uid = Some u /\ In u users /\ user_id u = uid.
Proof.
  intros (u & Hu & <-)%indexed_id_named. apply filter_In in Hu as [Hu _].
  destruct (user_with_id_In users u Hu) as (u' & Hf & Hid).
  exists u'. split; [done|]. split; [|done].
  unfold user_with_id in Hf. by apply find_some in Hf as [? _].
Qed.

(** X4.  A non-empty query whose normalised form occurs inside the
    lower-cased name of some named member is always answered with a
    member of the directory: through the index, or through the fuzzy
    path, where the substring bonus 0.8 passes the threshold. *)
Theorem substring_query_finds_member (users : list user) (q : string) (u : user) :
  PyStr.truthy q = true ->
  In u users ->
  named u = true ->
  PyStr.contains (PyStr.lower (PyStr.strip (user_name u))) (normalize q) = true ->
  exists m, find_user_by_name (load users) q = Some m /\ In m users.
Proof.
  intros Hq Hu Hn Hsub. unfold find_user_by_name. rewrite Hq.
  cbn [negb orb workspace_users]. fold (normalize q).
  assert (Hguard : match users with [] => true | _ :: _ => false end = false)
    by (destruct users; [destruct Hu | done]).
  change (workspace_users (load users)) with users. rewrite Hguard.
  destruct (user_name_mapping (load users) !! normalize q) as [uid|] eqn:Hk.
  - destruct (user_with_id_found users uid (normalize q) Hk) as (m & -> & Hm & _).
    by exists m.
  - unfold fuzzy_match.
    pose proof (fuzzy_loop_inv (normalize q) users) as Hinv.
    pose proof (match_score_substring _ _ Hsub) as H8.
    destruct (fuzzy_loop (normalize q) users) as [[m|] bs];
      unfold best_inv in Hinv; cbv beta zeta in Hinv.
    + destruct Hinv as (-> & Hm & _ & l1 & l2 & Hsplit & Hl1 & Hl2).
      assert (Hle : match_score (normalize q) (PyStr.strip (user_name u))
                    <= match_score (normalize q) (PyStr.strip (user_name m))).
      { rewrite Hsplit in Hu. apply in_app_or in Hu as [Hu|[<-|Hu]].
        - specialize (Hl1 _ Hu Hn). lra.
        - lra.
        - by apply Hl2. }
      rewrite (proj2 (Qleb_le 0.6 _)) by lra.
      exists m. split; [done|]. rewrite Hsplit. apply in_elt.
    + exfalso. destruct Hinv as [_ Hall]. specialize (Hall u Hu Hn). lra.
Qed.

Lemma substring_query_finds_member_witness :
  exists m, find_user_by_name (load [dinesh; divya]) "nesh K" = Some m
            /\ In m [dinesh; divya].
Proof.
  apply (substring_query_finds_member [dinesh; divya] "nesh K" dinesh).
  - reflexivity.
  - by left.
  - reflexivity.
  - vm_compute. reflexivity.
Defined.

(** ** The match endpoint of the workspace API *)

(** X5.  [match_user_name] of the workspace API reports a confidence
    exactly when it reports a user, the confidence is a number between 0
    and 1, the reported user is a member of the directory, and the search
    text is echoed. *)
Theorem api_match_response_shape (users : list user) (q : string) :
  let r := match_user_name (load users) q in
  (found r = true <-> is_Some (matched_user r))
  /\ (found r = true <-> is_Some (confidence_score r))
  /\ (forall c, confidence_score r = Some c -> 0 <= c <= 1)
  /\ (forall u, matched_user r = Some u -> In u users)
  /\ original_search r = q.
Proof.
  cbv zeta. unfold match_user_name.
  destruct (find_user_by_name (load users) q) as [u|] eqn:Hf;
    cbn [found matched_user confidence_score original_search].
  - split; [split; eauto|]. split; [split; eauto|].
    split; [intros c [= <-]; apply ratio_bounds|]. split; [|done].
    intros u' [= <-].
    unfold find_user_by_name in Hf.
    destruct (negb (PyStr.truthy q) || _); [discriminate|].
    fold (normalize q) in Hf.
    destruct (user_name_mapping (load users) !! normalize q) as [uid|] eqn:Hk.
    + cbn [workspace_users load] in Hf. unfold user_with_id in Hf.
      by apply find_some in Hf as [? _].
    + cbn [workspace_users load] in Hf. unfold fuzzy_match in Hf.
      pose proof (fuzzy_loop_inv (normalize q) users) as Hinv.
      destruct (fuzzy_loop (normalize q) users) as [[m|] bs]; [|discriminate].
      destruct Hinv as (_ & _ & _ & l1 & l2 & -> & _).
      destruct (Qleb 0.6 bs); [|discriminate].
      injection Hf as <-. apply in_elt.
  - split; [split; [discriminate | by intros [? ?]]|].
    split; [split; [discriminate | by intros [? ?]]|].
    split; [discriminate|]. split; [discriminate | done].
Qed.

Lemma api_match_response_shape_witness :
  found (match_user_name (load [dinesh; divya]) "Dines") = true
  /\ (forall c,
        confidence_score (match_user_name (load [dinesh; divya]) "Dines") = Some c ->
        0 <= c <= 1).
Proof.
  pose proof (api_match_response_shape [dinesh; divya] "Dines")
    as (Hfound & _ & Hconf & _).
  split; [apply Hfound; vm_compute; eauto | exact Hconf].
Defined.

(** ** Completeness of the suggestions *)

Section Completeness.

Lemma candidates_complete (pl : string) (users : list user) (u : user) :
  In u users -> named u = true ->
  0.3 < suggestion_score pl (PyStr.strip (user_name u)) ->
  In (mkSuggestion u (suggestion_score pl (PyStr.strip (user_name u)))
        (PyStr.strip (user_name u)))
     (candidates pl users).
Proof.
  intros Hu Hn H3. unfold candidates. apply in_flat_map. exists u.
  split; [done|]. fold (named u). rewrite Hn. cbn [negb].
  apply Qltb_lt in H3. rewrite H3. by left.
Qed.

Lemma length_candidates (pl : string) (users : list user) :
  (length (candidates pl users) <= length users)%nat.
Proof.
  induction users as [|u users IH]; [done|].
  cbn [candidates flat_map length]. fold (candidates pl users).
  rewrite length_app.
  destruct (negb _); [cbn; lia|]. destruct (Qltb _ _); cbn; lia.
Qed.

Lemma slice_to_all {A : Type} (l : list A) (n : Z) :
  (Z.of_nat (length l) <= n)%Z -> slice_to l n = l.
Proof.
  intros H. unfold slice_to. rewrite (proj2 (Z.leb_le 0 n)) by lia.
  apply firstn_all2. lia.
Qed.

End Completeness.

(** X6.  With a non-empty partial name and a limit at least the size of
    the directory, no relevant member is dropped: every named member
    whose additive score exceeds 0.3 is among the suggestions, with that
    score. *)
Theorem suggestions_complete
    (self : manager) (partial : string) (limit : Z) (u : user) :
  PyStr.truthy partial = true ->
  (Z.of_nat (length (workspace_users self)) <= limit)%Z ->
  In u (workspace_users self) ->
  named u = true ->
  0.3 < relevance partial u ->
  exists s, In s (get_name_suggestions self partial limit)
            /\ sug_user s = u /\ sug_score s = relevance partial u.
Proof.
  intros Hp Hlimit Hu Hn H3. unfold get_name_suggestions. rewrite Hp.
  cbn [negb orb].
  destruct (workspace_users self) as [|u0 us] eqn:Eu; [destruct Hu|].
  rewrite <- Eu in *. fold (normalize partial).
  rewrite slice_to_all.
  2:{ rewrite (Permutation_length (sort_desc_perm _)).
      pose proof (length_candidates (normalize partial) (workspace_users self)).
      lia. }
  eexists. split.
  - apply (Permutation_in _ (Permutation_sym (sort_desc_perm _))).
    apply candidates_complete; eassumption.
  - split; reflexivity.
Qed.

Lemma suggestions_complete_witness :
  exists s, In s (get_name_suggestions (load [dinesh; divya]) "Di" 2)
            /\ sug_user s = dinesh /\ sug_score s = relevance "Di" dinesh.
Proof.
  apply (suggestions_complete (load [dinesh; divya]) "Di" 2 dinesh).
  - reflexivity.
  - vm_compute. discriminate.
  - by left.
  - reflexivity.
  - vm_compute. reflexivity.
Defined.

(** X7.  A named member whose lower-cased name starts with the normalised
    partial name scores at least 1.4 (the two bonuses 0.8 and 0.6), and
    at least 2.3 when its first token starts with it too; so it always
    passes the 0.3 bar. *)
Theorem prefix_relevance (partial : string) (u : user) :
  PyStr.startswith (PyStr.lower (PyStr.strip (user_name u))) (normalize partial)
    = true ->
  1.4 <= relevance partial u
  /\ (match tokens u with
      | p0 :: _ =>
          PyStr.startswith (PyStr.lower p0) (normalize partial) = true ->
          2.3 <= relevance partial u
      | [] => True
      end).
Proof.
  intros Hs. unfold relevance, suggestion_score, tokens.
  pose proof (ratio_bounds (normalize partial)
                (PyStr.lower (PyStr.strip (user_name u)))) as Hr.
  rewrite Hs.
  assert (Hc : PyStr.contains (PyStr.lower (PyStr.strip (user_name u)))
                 (normalize partial) = true).
  { destruct (PyStr.lower (PyStr.strip (user_name u))); cbn [PyStr.contains];
      by rewrite Hs. }
  rewrite Hc.
  destruct (PyStr.split (PyStr.strip (user_name u))) as [|p0 ps].
  - split; [|done]. destruct (_ && _); lra.
  - split.
    + destruct (PyStr.startswith (PyStr.lower p0) _); destruct (_ && _); lra.
    + intros ->. destruct (_ && _); lra.
Qed.

Lemma prefix_relevance_witness :
  1.4 <= relevance "Di" dinesh
  /\ (match tokens dinesh with
      | p0 :: _ =>
          PyStr.startswith (PyStr.lower p0) (normalize "Di") = true ->
          2.3 <= relevance "Di" dinesh
      | [] => True
      end).
Proof. apply (prefix_relevance "Di" dinesh). vm_compute. reflexivity. Defined.

(** ** More on the paginated fetch *)

Section FetchMore.

Lemma person_users_type (raw : list Fetch.raw_user) :
  Forall (fun u => user_type u = "person") (Fetch.person_users raw).
Proof.
  unfold Fetch.person_users. induction raw as [|r raw IH]; [constructor|].
  cbn [flat_map]. apply Forall_app. split; [|exact IH].
  destruct (PyStr.eqb (Fetch.raw_object r) "user") eqn:Ho; cbn [andb];
    [|constructor].
  destruct (PyStr.eqb (Fetch.raw_type r) "person") eqn:Ht; [|constructor].
  constructor; [|constructor]. cbn [user_type].
  by apply bool_decide_eq_true_1 in Ht.
Qed.

Lemma fetch_loop_reads (pages : list Fetch.response) (last : Fetch.response)
    (rest : list Fetch.response) (acc : list user) :
  Forall (fun r => Fetch.status_code r = 200%nat /\ Fetch.has_more r = true) pages ->
  Fetch.status_code last = 200%nat ->
  Fetch.has_more last = false ->
  Fetch.fetch_loop (pages ++ last :: rest) acc
  = Fetch.Returned
      (acc ++ flat_map (fun r => Fetch.person_users (Fetch.results r))
                (pages ++ [last])).
Proof.
  intros Hpages Hst Hmore. revert acc.
  induction Hpages as [|r pages [Hr1 Hr2] _ IH]; intros acc.
  - cbn [app Fetch.fetch_loop flat_map]. rewrite Hst, Hmore.
    cbn [Nat.eqb]. by rewrite app_nil_r.
  - cbn [app Fetch.fetch_loop flat_map]. rewrite Hr1, Hr2. cbn [Nat.eqb].
    rewrite IH. by rewrite app_assoc.
Qed.

Lemma fetch_loop_fails (pages : list Fetch.response) (bad : Fetch.response)
    (rest : list Fetch.response) (acc : list user) :
  Forall (fun r => Fetch.status_code r = 200%nat /\ Fetch.has_more r = true) pages ->
  Fetch.status_code bad <> 200%nat ->
  Fetch.fetch_loop (pages ++ bad :: rest) acc
  = Fetch.Raised ("API request failed: " ++ Fetch.text bad).
Proof.
  intros Hpages Hbad. revert acc.
  induction Hpages as [|r pages [Hr1 Hr2] _ IH]; intros acc.
  - cbn [app Fetch.fetch_loop]. by rewrite (proj2 (Nat.eqb_neq _ _) Hbad).
  - cbn [app Fetch.fetch_loop]. rewrite Hr1, Hr2. cbn [Nat.eqb]. apply IH.
Qed.

End FetchMore.

(** X8.  [verify_extraction] accepts a list exactly when it is not empty,
    every entry has the fields "id", "name" and "type", and the ids are
    pairwise distinct.  For the dictionaries [fetch_users_in_batches]
    builds, which have every field, this is: not empty and no id twice. *)
Theorem verify_extraction_spec (users : list Fetch.user_dict) (fetched : list user) :
  (Fetch.verify_extraction users = true
   <-> users <> [] /\ Forall complete users
       /\ NoDup (omap Fetch.ud_id users))
  /\ (Fetch.verify_extraction (map Fetch.as_dict fetched) = true
      <-> fetched <> [] /\ NoDup (map user_id fetched)).
Proof.
  assert (Hfields : forall l : list Fetch.user_dict,
    existsb (fun user =>
               existsb (fun field => negb (Fetch.has_field field user))
                 Fetch.required_fields) l = false
    <-> Forall complete l).
  { induction l as [|d l IH]; [by split|].
    cbn [existsb]. rewrite orb_false_iff, IH, Forall_cons.
    enough (existsb (fun field => negb (Fetch.has_field field d))
              Fetch.required_fields = false <-> complete d) as -> by done.
    unfold complete.
    destruct d as [[i|] [n|] [t|]]; cbn;
      (split;
       [ first [discriminate | intros _; repeat split; eauto]
       | first [done | intros ([? ?] & [? ?] & [? ?]); discriminate] ]). }
  assert (Hspec : forall l : list Fetch.user_dict,
    Fetch.verify_extraction l = true
    <-> l <> [] /\ Forall complete l /\ NoDup (omap Fetch.ud_id l)).
  { intros l. unfold Fetch.verify_extraction. destruct l as [|d l].
    { split; [discriminate | by intros [? _]]. }
    set (l' := d :: l). specialize (Hfields l').
    destruct (existsb _ l') eqn:Hex.
    - split; [discriminate|]. intros (_ & Hc & _).
      apply Hfields in Hc. discriminate.
    - assert (Hc : Forall complete l') by (by apply Hfields).
      destruct (length _ =? size _)%nat eqn:Hsz; cbn [negb].
      + apply Nat.eqb_eq in Hsz. split; [|done]. intros _.
        split; [done|]. split; [done|]. by apply size_list_to_set_NoDup.
      + split; [discriminate|]. intros (_ & _ & Hnd).
        rewrite size_list_to_set in Hsz by done.
        by rewrite Nat.eqb_refl in Hsz. }
  split; [apply Hspec|]. rewrite Hspec.
  assert (Hids : omap Fetch.ud_id (map Fetch.as_dict fetched) = map user_id fetched).
  { induction fetched as [|u us IH]; [done|].
    cbn [map]. rewrite <- IH. reflexivity. }
  rewrite Hids. split.
  - intros (Hne & _ & Hnd). split; [|done]. by destruct fetched.
  - intros (Hne & Hnd). split; [by destruct fetched|]. split; [|done].
    apply List.Forall_forall. intros d (u & <- & _)%in_map_iff.
    unfold complete, Fetch.as_dict. cbn. eauto.
Qed.

Lemma verify_extraction_spec_witness :
  Fetch.verify_extraction (map Fetch.as_dict [dinesh; divya]) = true.
Proof.
  apply (proj2 (verify_extraction_spec [] [dinesh; divya])).
  split; [discriminate|].
  vm_compute. repeat constructor; intros H;
    repeat (apply elem_of_cons in H as [H|H]; [discriminate|]);
    by apply elem_of_nil in H.
Defined.

(** X9.  With a token, when the remote answers 200 and announces more on
    every page up to a last page that answers 200 and announces no more,
    the fetch returns the person users of exactly these pages, in order;
    what the remote would answer afterwards is never asked for, and every
    user returned has type "person". *)
Theorem fetch_reads_until_last_page
    (token : string) (pages : list Fetch.response) (last : Fetch.response)
    (rest : list Fetch.response) :
  PyStr.truthy token = true ->
  Forall (fun r => Fetch.status_code r = 200%nat /\ Fetch.has_more r = true) pages ->
  Fetch.status_code last = 200%nat ->
  Fetch.has_more last = false ->
  Fetch.fetch_users_in_batches (Some token) (pages ++ last :: rest)
  = Fetch.Returned
      (flat_map (fun r => Fetch.person_users (Fetch.results r)) (pages ++ [last]))
  /\ Forall (fun u => user_type u = "person")
       (flat_map (fun r => Fetch.person_users (Fetch.results r)) (pages ++ [last])).
Proof.
  intros Htok Hpages Hst Hmore. split.
  - unfold Fetch.fetch_users_in_batches. destruct token; [discriminate|].
    by rewrite (fetch_loop_reads pages last rest []).
  - induction (pages ++ [last]) as [|r l IH]; [constructor|].
    cbn [flat_map]. apply Forall_app. split; [apply person_users_type | exact IH].
Qed.

Lemma fetch_reads_until_last_page_witness :
  Fetch.fetch_users_in_batches (Some "secret") ([page1] ++ page2 :: [page1])
  = Fetch.Returned
      (flat_map (fun r => Fetch.person_users (Fetch.results r)) ([page1] ++ [page2]))
  /\ Forall (fun u => user_type u = "person")
       (flat_map (fun r => Fetch.person_users (Fetch.results r)) ([page1] ++ [page2])).
Proof.
  apply (fetch_reads_until_last_page "secret" [page1] page2 [page1]).
  - reflexivity.
  - repeat constructor.
  - reflexivity.
  - reflexivity.
Defined.

(** X10.  The fetch is all or nothing: without a token it raises before
    any request, and when a page answers with a status other than 200
    after any number of good pages it raises, so the users of the pages
    already read are not returned. *)
Theorem fetch_all_or_nothing
    (token : option string) (pages : list Fetch.response) (bad : Fetch.response)
    (rest : list Fetch.response) :
  Forall (fun r => Fetch.status_code r = 200%nat /\ Fetch.has_more r = true) pages ->
  Fetch.status_code bad <> 200%nat ->
  (forall users,
     Fetch.fetch_users_in_batches token (pages ++ bad :: rest)
     <> Fetch.Returned users)
  /\ (forall remote users,
        Fetch.fetch_users_in_batches None remote <> Fetch.Returned users).
Proof.
  intros Hpages Hbad. split; [|discriminate].
  intros users. unfold Fetch.fetch_users_in_batches.
  destruct token as [[|c t]|]; try discriminate.
  by rewrite (fetch_loop_fails pages bad rest []).
Qed.

Lemma fetch_all_or_nothing_witness :
  (forall users,
     Fetch.fetch_users_in_batches (Some "secret")
       ([page1] ++ Fetch.mkResponse 500 [] false None "Service Unavailable" :: [])
     <> Fetch.Returned users)
  /\ (forall remote users,
        Fetch.fetch_users_in_batches None remote <> Fetch.Returned users).
Proof.
  apply (fetch_all_or_nothing (Some "secret") [page1]
           (Fetch.mkResponse 500 [] false None "Service Unavailable") []).
  - repeat constructor.
  - cbn. discriminate.
Defined.

(** ** Loading the directory *)

Section LoaderFacts.

Lemma first_readable_app (fs : string -> Loader.file_read)
    (before after : list string) (path : string) (users : list user) :
  Forall (fun p => fs p = Loader.NotReadable) before ->
  fs path = Loader.Decoded users ->
  Loader.first_readable fs (before ++ path :: after) = Some users.
Proof.
  intros Hb Hp. induction Hb as [|p before Hpn _ IH]; cbn [app Loader.first_readable].
  - by rewrite Hp.
  - by rewrite Hpn.
Qed.

Lemma first_readable_none (fs : string -> Loader.file_read) (paths : list string) :
  Forall (fun p => fs p = Loader.NotReadable) paths ->
  Loader.first_readable fs paths = None.
Proof.
  induction 1 as [|p paths Hp _ IH]; [done|].
  cbn [Loader.first_readable]. by rewrite Hp.
Qed.

(** A member the resolution returns belongs to the directory, and its id
    is the id of a named member. *)
Lemma find_user_by_name_sound (users : list user) (q : string) (m : user) :
  find_user_by_name (load users) q = Some m ->
  In m users
  /\ exists u, In u users /\ named u = true /\ user_id u = user_id m.
Proof.
  unfold find_user_by_name.
  destruct (negb (PyStr.truthy q) || _); [discriminate|].
  fold (normalize q). change (workspace_users (load users)) with users.
  destruct (user_name_mapping (load users) !! normalize q) as [uid|] eqn:Hk.
  - intros Hf. pose proof Hf as Hf'. unfold user_with_id in Hf'.
    apply find_some in Hf' as [Hin Hid%bool_decide_eq_true_1].
    split; [done|].
    destruct (indexed_id_named _ _ _ Hk) as (u & Hu & Hu').
    apply filter_In in Hu as [Hu Hn]. exists u. by rewrite Hid.
  - unfold fuzzy_match.
    pose proof (fuzzy_loop_inv (normalize q) users) as Hinv.
    destruct (fuzzy_loop (normalize q) users) as [[m'|] bs]; [|discriminate].
    destruct Hinv as (_ & Hm & _ & l1 & l2 & -> & _).
    destruct (Qleb 0.6 bs); [|discriminate]. intros [= <-].
    split; [apply in_elt|]. exists m'. split; [apply in_elt | done].
Qed.

Lemma empty_directory_finds_nothing (mapping : gmap string string) (q : string) :
  find_user_by_name (mkManager [] mapping) q = None.
Proof.
  unfold find_user_by_name. cbn [workspace_users]. by rewrite orb_true_r.
Qed.

End LoaderFacts.

(** X11.  The list of users is loaded once: after any call of
    [get_workspace_users] the list it returned is stored, and every later
    call returns that same list and leaves the manager unchanged,
    whatever the files or the API would now give.  In particular a load
    that found nothing is never retried. *)
Theorem get_workspace_users_caches
    (fs fs' : string -> Loader.file_read) (api api' : Loader.api_reply)
    (self : Loader.state) :
  Loader.workspace_users (fst (Loader.get_workspace_users fs api self))
    = Some (snd (Loader.get_workspace_users fs api self))
  /\ Loader.get_workspace_users fs' api'
       (fst (Loader.get_workspace_users fs api self))
     = Loader.get_workspace_users fs api self.
Proof.
  destruct (Loader.get_workspace_users fs api self) as [s1 us] eqn:E.
  cbn [fst snd].
  assert (Hs1 : Loader.workspace_users s1 = Some us).
  { unfold Loader.get_workspace_users in E.
    destruct (Loader.workspace_users self) as [users|] eqn:Hs;
      [by injection E as <- <-|].
    destruct (Loader.first_readable fs Loader.possible_paths);
      [by injection E as <- <-|].
    destruct (Loader.use_api self); [|by injection E as <- <-].
    destruct api as [|status_code results]; [by injection E as <- <-|].
    destruct (status_code =? 200)%nat; by injection E as <- <-. }
  split; [exact Hs1|].
  unfold Loader.get_workspace_users. by rewrite Hs1.
Qed.

(** X12.  A new manager takes its directory from the first of the four
    candidate files that can be read and decoded: its users are the
    decoded list, its index is the one built from that list, so it is the
    manager [load users]; the API is not consulted. *)
Theorem init_reads_first_file
    (use_api : bool) (fs : string -> Loader.file_read) (api : Loader.api_reply)
    (before after : list string) (path : string) (users : list user) :
  Loader.possible_paths = before ++ path :: after ->
  Forall (fun p => fs p = Loader.NotReadable) before ->
  fs path = Loader.Decoded users ->
  Loader.workspace_users (Loader.init use_api fs api) = Some users
  /\ Loader.view (Loader.init use_api fs api) = load users.
Proof.
  intros Hpaths Hb Hp. unfold Loader.init, Loader.get_workspace_users.
  cbn [Loader.workspace_users]. rewrite Hpaths.
  rewrite (first_readable_app fs before after path users Hb Hp).
  by cbn.
Qed.

Lemma init_reads_first_file_witness :
  Loader.workspace_users
    (Loader.init true (only_file "../notion_users.json" [dinesh; divya])
       Loader.RequestRaised)
  = Some [dinesh; divya]
  /\ Loader.view
       (Loader.init true (only_file "../notion_users.json" [dinesh; divya])
          Loader.RequestRaised)
     = load [dinesh; divya].
Proof.
  apply (init_reads_first_file true
           (only_file "../notion_users.json" [dinesh; divya])
           Loader.RequestRaised
           ["notion_users.json"]
           ["../../notion_users.json";
            "/Users/anupamar/Documents/open-webui-f/notion_users.json"]
           "../notion_users.json").
  - reflexivity.
  - repeat constructor.
  - reflexivity.
Defined.

(** X13.  When none of the candidate files can be read, a manager
    configured for the API that gets a 200 answer keeps the person users
    of that answer, indexed; in every other case (no API configured, the
    request raises, another status) it ends with the empty directory, for
    which no name resolves and nothing is suggested. *)
Theorem init_without_file
    (use_api : bool) (fs : string -> Loader.file_read) (api : Loader.api_reply) :
  Forall (fun p => fs p = Loader.NotReadable) Loader.possible_paths ->
  (forall results,
     use_api = true -> api = Loader.Replied 200 results ->
     Loader.view (Loader.init use_api fs api)
       = load (Loader.api_person_users results)
     /\ Forall (fun u => user_type u = "person") (Loader.api_person_users results))
  /\ (use_api = false
      \/ api = Loader.RequestRaised
      \/ (exists status_code results,
            api = Loader.Replied status_code results /\ status_code <> 200%nat) ->
      Loader.workspace_users (Loader.init use_api fs api) = Some []
      /\ forall (q : string) (limit : Z),
           find_user_by_name (Loader.view (Loader.init use_api fs api)) q = None
           /\ get_name_suggestions (Loader.view (Loader.init use_api fs api)) q limit
              = []).
Proof.
  intros Hfs. unfold Loader.init, Loader.get_workspace_users.
  cbn [Loader.workspace_users Loader.use_api].
  rewrite (first_readable_none fs _ Hfs).
  assert (Hempty : forall st : Loader.state,
    Loader.workspace_users st = Some [] ->
    Loader.workspace_users st = Some []
    /\ forall (q : string) (limit : Z),
         find_user_by_name (Loader.view st) q = None
         /\ get_name_suggestions (Loader.view st) q limit = []).
  { intros st Hst. split; [done|]. intros q limit. unfold Loader.view.
    rewrite Hst. cbn [default]. split; [apply empty_directory_finds_nothing|].
    unfold get_name_suggestions. cbn [workspace_users]. by rewrite orb_true_r. }
  split.
  - intros results -> ->. cbn [Nat.eqb fst]. split; [reflexivity|].
    unfold Loader.api_person_users.
    induction results as [|r results IH]; [constructor|].
    cbn [flat_map]. apply Forall_app. split; [|exact IH].
    destruct (PyStr.eqb (Fetch.raw_object r) "user"); cbn [andb]; [|constructor].
    destruct (PyStr.eqb (Fetch.raw_type r) "person") eqn:Ht; [|constructor].
    repeat constructor. cbn [user_type]. by apply bool_decide_eq_true_1 in Ht.
  - intros [->|[->|(status_code & results & -> & Hne)]].
    + by apply Hempty.
    + destruct use_api; by apply Hempty.
    + rewrite (proj2 (Nat.eqb_neq _ _) Hne). destruct use_api; by apply Hempty.
Qed.

Lemma init_without_file_witness :
  Loader.workspace_users (Loader.init false no_file Loader.RequestRaised) = Some []
  /\ forall (q : string) (limit : Z),
       find_user_by_name
         (Loader.view (Loader.init false no_file Loader.RequestRaised)) q = None
       /\ get_name_suggestions
            (Loader.view (Loader.init false no_file Loader.RequestRaised)) q limit
          = [].
Proof.
  apply (init_without_file false no_file Loader.RequestRaised).
  - repeat constructor.
  - by left.
Defined.

(** ** The people and link properties of a database entry *)

(** X14.  "Request Owner" is a people reference only to a non-empty id of
    a named member of the directory; otherwise it is the owner text as
    given.  "Created By" is left out exactly when the given name is
    empty. *)
Theorem entry_people_properties (users : list user) (owner created : string) :
  match Entry.request_owner (load users) owner with
  | Entry.People i =>
      i <> EmptyString
      /\ get_user_id_by_name (load users) owner = Some i
      /\ exists u, In u users /\ named u = true /\ user_id u = i
  | Entry.RichText content => content = owner
  end
  /\ (Entry.created_by (load users) created = None <-> created = EmptyString).
Proof.
  split.
  - unfold Entry.request_owner, Entry.found_id, Entry.user_id_for.
    destruct (PyStr.truthy owner); [|done].
    unfold get_user_id_by_name.
    destruct (find_user_by_name (load users) owner) as [m|] eqn:Hf; [|done].
    destruct (PyStr.truthy (user_id m)) eqn:Hi; [|done].
    split; [intros E; by rewrite E in Hi|]. split; [done|].
    by apply find_user_by_name_sound in Hf as [_ ?].
  - unfold Entry.created_by, Entry.found_id, Entry.user_id_for.
    destruct created as [|c r]; [done|]. cbn [PyStr.truthy].
    destruct (get_user_id_by_name _ _) as [i|]; [destruct (PyStr.truthy i)|];
      split; discriminate.
Qed.

Lemma entry_people_properties_witness :
  Entry.created_by (load [dinesh; divya]) EmptyString = None.
Proof.
  apply (proj2 (entry_people_properties [dinesh; divya] "Dinesh" EmptyString)).
  reflexivity.
Defined.

(** X15.  The reference link, as the router prepares it and the manager
    stores it: the stored url is never empty and has no white space
    around it; it is the trimmed text (or the trimmed first entry of a
    list), and nothing is stored when that text is blank or absent. *)
Theorem reference_link_normalised (ref_link : Router.reference_input) :
  match Entry.reference_link (Router.ref_link_val ref_link) with
  | Some url =>
      url <> EmptyString
      /\ trimmed url
      /\ match ref_link with
         | Router.RefStr s => url = PyStr.strip s
         | Router.RefList (x :: _) => url = PyStr.strip x
         | _ => False
         end
  | None =>
      match ref_link with
      | Router.RefStr s => PyStr.strip s = EmptyString
      | Router.RefList (x :: _) => PyStr.strip x = EmptyString
      | _ => True
      end
  end.
Proof.
  unfold Entry.reference_link, Router.ref_link_val, trimmed.
  destruct ref_link as [[|x l]|s|]; try done.
  - destruct (PyStr.truthy (PyStr.strip x)) eqn:Hx.
    + rewrite (truthy_strip x Hx).
      split; [by apply truthy_nonempty|]. split; [apply strip_idem | done].
    + by destruct (PyStr.strip x).
  - destruct (PyStr.truthy (PyStr.strip s)) eqn:Hs.
    + rewrite Hs. rewrite strip_idem.
      split; [by apply truthy_nonempty|]. split; [apply strip_idem | done].
    + by destruct (PyStr.strip s).
Qed.

(** ** The priority mapping of the router *)

Section Priority.

Lemma lookup_update (m : gmap string string) (pairs : list (string * string))
    (k : string) :
  Router.update m pairs !! k
  = match List.find (fun kv => bool_decide (k = fst kv)) (rev pairs) with
    | Some kv => Some (snd kv)
    | None => m !! k
    end.
Proof.
  unfold Router.update. revert m.
  induction pairs as [|[k0 v0] pairs IH] using rev_ind; intros m; [done|].
  rewrite fold_left_app, rev_app_distr. cbn [fold_left rev app List.find fst snd].
  case_bool_decide as Hk.
  - subst. by rewrite lookup_insert_eq.
  - rewrite lookup_insert_ne by done. apply IH.
Qed.

(** Case analysis on a key: one of the sixteen labels, or none of them. *)
Ltac split_priority_key k label :=
  destruct (decide (k = label)) as [->|?]; [vm_compute; reflexivity|].

Ltac split_priority_keys k :=
  split_priority_key k "0 - Critical"; split_priority_key k "0";
  split_priority_key k "critical"; split_priority_key k "Critical";
  split_priority_key k "1 - High"; split_priority_key k "1";
  split_priority_key k "high"; split_priority_key k "High";
  split_priority_key k "2 - Medium"; split_priority_key k "2";
  split_priority_key k "medium"; split_priority_key k "Medium";
  split_priority_key k "3 - Low"; split_priority_key k "3";
  split_priority_key k "low"; split_priority_key k "Low".

(** The keys and values of the fallback mapping, by cases on the key. *)
Lemma default_priority_lookup (k : string) :
  Router.default_priority_map !! k = priority_class true true true true k.
Proof.
  unfold priority_class. split_priority_keys k.
  unfold Router.default_priority_map. rewrite lookup_update.
  cbn [rev app List.find fst snd].
  rewrite !bool_decide_eq_false_2
    by (done || (rewrite !elem_of_cons, elem_of_nil; tauto)).
  reflexivity.
Qed.

(** The same for the mapping built from the options of the database. *)
Lemma options_priority_lookup (options : list string) (k : string) :
  Router.options_priority_map options !! k
  = priority_class (Router.has_option "Critical" options)
      (Router.has_option "High" options)
      (Router.has_option "Medium" options)
      (Router.has_option "Low" options) k.
Proof.
  unfold Router.options_priority_map, priority_class.
  destruct (Router.has_option "Critical" options),
           (Router.has_option "High" options),
           (Router.has_option "Medium" options),
           (Router.has_option "Low" options);
    split_priority_keys k;
    rewrite ?lookup_update; cbn [rev app List.find fst snd];
    rewrite ?bool_decide_eq_false_2
      by (done || (rewrite !elem_of_cons, elem_of_nil; tauto));
    reflexivity.
Qed.

(** Whatever the reply, the mapping is of that shape. *)
Lemma priority_map_lookup (reply : Router.schema_reply) :
  exists critical high medium low : bool,
    forall k, Router.priority_map reply !! k
              = priority_class critical high medium low k.
Proof.
  unfold Router.priority_map.
  assert (Hd : exists critical high medium low : bool,
    forall k, Router.default_priority_map !! k
              = priority_class critical high medium low k).
  { exists true, true, true, true. apply default_priority_lookup. }
  destruct reply as [|status_code priority]; [exact Hd|].
  destruct (status_code =? 200)%nat; [|exact Hd].
  destruct (Router.actual_priority_options priority) as [[|o options]|];
    try exact Hd.
  eexists _, _, _, _. apply options_priority_lookup.
Qed.

Lemma priority_class_range (critical high medium low : bool) (k : string) :
  In (default "Medium" (priority_class critical high medium low k)) priority_names.
Proof.
  unfold priority_class, priority_names.
  destruct critical, high, medium, low;
    repeat (case_bool_decide; [cbn [default In]; auto 6|]);
    cbn [default In]; auto 6.
Qed.

(** The class of each of the four names. *)
Ltac decide_label_membership :=
  repeat
    (first
       [ rewrite bool_decide_eq_true_2 by (rewrite !elem_of_cons; auto 6)
       | rewrite bool_decide_eq_false_2
           by (let H := fresh in
               intros H;
               repeat (apply elem_of_cons in H as [H|H]; [discriminate|]);
               by apply elem_of_nil in H) ]).

Lemma priority_class_names (critical high medium low : bool) :
  priority_class critical high medium low "Critical"
    = (if critical then Some "Critical" else None)
  /\ priority_class critical high medium low "High"
     = (if high then Some "High" else None)
  /\ priority_class critical high medium low "Medium"
     = (if medium then Some "Medium" else None)
  /\ priority_class critical high medium low "Low"
     = (if low then Some "Low" else None).
Proof.
  unfold priority_class. repeat split; decide_label_membership; reflexivity.
Qed.

Lemma priority_class_idem (critical high medium low : bool) (k : string) :
  default "Medium"
    (priority_class critical high medium low
       (default "Medium" (priority_class critical high medium low k)))
  = default "Medium" (priority_class critical high medium low k).
Proof.
  destruct (priority_class_names critical high medium low)
    as (Hc & Hh & Hm & Hl).
  unfold priority_class at 2 3.
  repeat case_bool_decide;
    destruct critical, high, medium, low; cbn [default] in *;
    rewrite ?Hc, ?Hh, ?Hm, ?Hl; reflexivity.
Qed.

End Priority.

(** X16.  The mapped priority is always one of "Critical", "High",
    "Medium", "Low", whatever the schema request gives and whatever label
    the form carries; and mapping is idempotent: the mapped value maps to
    itself. *)
Theorem mapped_priority_canonical (reply : Router.schema_reply) (label : string) :
  In (Router.mapped_priority reply label) priority_names
  /\ Router.mapped_priority reply (Router.mapped_priority reply label)
     = Router.mapped_priority reply label.
Proof.
  unfold Router.mapped_priority.
  destruct (priority_map_lookup reply) as (c & h & m & l & Hlk).
  rewrite !Hlk. split; [apply priority_class_range | apply priority_class_idem].
Qed.

(** X17.  When the schema request answers 200 with a non-empty list of
    priority options, a label is mapped to a name other than "Medium"
    only if the database has that name among its options; a label whose
    name the database lacks falls back to "Medium", and a level the
    database has maps to itself. *)
Theorem mapped_priority_respects_options
    (names : list string) (label : string) :
  names <> [] ->
  (Router.mapped_priority (schema_with names) label <> "Medium" ->
   In (Router.mapped_priority (schema_with names) label) names)
  /\ (forall level,
        In level priority_names -> In level names ->
        Router.mapped_priority (schema_with names) level = level)
  /\ (forall level,
        In level priority_names -> ~ In level names ->
        Router.mapped_priority (schema_with names) level = "Medium").
Proof.
  intros Hne.
  assert (Hnames : Router.option_names (map Some names) = Some names).
  { clear. induction names as [|n names IH]; [done|].
    cbn [map Router.option_names]. by rewrite IH. }
  assert (Hlk : forall k,
    Router.priority_map (schema_with names) !! k
    = priority_class (Router.has_option "Critical" names)
        (Router.has_option "High" names) (Router.has_option "Medium" names)
        (Router.has_option "Low" names) k).
  { intros k. unfold Router.priority_map, schema_with.
    cbn [Nat.eqb Router.actual_priority_options Router.select_options].
    rewrite Hnames. destruct names as [|n names']; [done|].
    apply options_priority_lookup. }
  assert (Hopt : forall x, Router.has_option x names = true <-> In x names).
  { intros x. unfold Router.has_option. rewrite bool_decide_eq_true.
    apply list_elem_of_In. }
  unfold Router.mapped_priority. split; [|split].
  - rewrite Hlk. unfold priority_class.
    repeat (case_bool_decide;
            [ match goal with
              | |- context [Router.has_option ?x names] =>
                  destruct (Router.has_option x names) eqn:E;
                  cbn [default]; [intros _; by apply Hopt | done]
              end | ]).
    done.
  - intros level Hlevel Hin. rewrite Hlk. apply Hopt in Hin.
    destruct (priority_class_names (Router.has_option "Critical" names)
                (Router.has_option "High" names) (Router.has_option "Medium" names)
                (Router.has_option "Low" names)) as (Hc & Hh & Hm & Hl).
    unfold priority_names in Hlevel.
    destruct Hlevel as [<-|[<-|[<-|[<-|[]]]]];
      rewrite ?Hc, ?Hh, ?Hm, ?Hl, Hin; reflexivity.
  - intros level Hlevel Hnin. rewrite Hlk.
    assert (Hf : Router.has_option level names = false).
    { destruct (Router.has_option level names) eqn:E; [|done].
      by apply Hopt in E. }
    destruct (priority_class_names (Router.has_option "Critical" names)
                (Router.has_option "High" names) (Router.has_option "Medium" names)
                (Router.has_option "Low" names)) as (Hc & Hh & Hm & Hl).
    unfold priority_names in Hlevel.
    destruct Hlevel as [<-|[<-|[<-|[<-|[]]]]];
      rewrite ?Hc, ?Hh, ?Hm, ?Hl, Hf; reflexivity.
Qed.

Lemma mapped_priority_respects_options_witness :
  (Router.mapped_priority (schema_with ["High"; "Low"]) "1 - High" <> "Medium" ->
   In (Router.mapped_priority (schema_with ["High"; "Low"]) "1 - High")
      ["High"; "Low"])
  /\ (forall level,
        In level priority_names -> In level ["High"; "Low"] ->
        Router.mapped_priority (schema_with ["High"; "Low"]) level = level)
  /\ (forall level,
        In level priority_names -> ~ In level ["High"; "Low"] ->
        Router.mapped_priority (schema_with ["High"; "Low"]) level = "Medium").
Proof.
  apply (mapped_priority_respects_options ["High"; "Low"] "1 - High").
  discriminate.
Defined.

(** X18.  A schema request that raises, answers with another status than
    200, yields no priority options, or yields an option without a name
    does not fail the request: the fallback table is used, in which the
    four spellings of each level map to that level and every other label
    maps to "Medium". *)
Theorem mapped_priority_fallback (reply : Router.schema_reply) (label : string) :
  match reply with
  | Router.SchemaRaised => True
  | Router.SchemaReplied status_code priority =>
      status_code <> 200%nat
      \/ Router.actual_priority_options priority = None
      \/ Router.actual_priority_options priority = Some []
  end ->
  Router.mapped_priority reply label
  = default "Medium" (priority_class true true true true label)
  /\ (label ∉ ["0 - Critical"; "0"; "critical"; "Critical";
               "1 - High"; "1"; "high"; "High";
               "2 - Medium"; "2"; "medium"; "Medium";
               "3 - Low"; "3"; "low"; "Low"] ->
      Router.mapped_priority reply label = "Medium").
Proof.
  intros Hreply.
  assert (Hmap : Router.priority_map reply = Router.default_priority_map).
  { unfold Router.priority_map. destruct reply as [|status_code priority]; [done|].
    destruct Hreply as [Hst|[Ho|Ho]].
    - by rewrite (proj2 (Nat.eqb_neq _ _) Hst).
    - rewrite Ho. by destruct (status_code =? 200)%nat.
    - rewrite Ho. by destruct (status_code =? 200)%nat. }
  unfold Router.mapped_priority. rewrite Hmap, default_priority_lookup.
  split; [done|]. intros Hnot. unfold priority_class.
  rewrite !bool_decide_eq_false_2; [done|..];
    intros Hin; apply Hnot; revert Hin;
    rewrite !elem_of_cons, !elem_of_nil; tauto.
Qed.

Lemma mapped_priority_fallback_witness :
  Router.mapped_priority (Router.SchemaReplied 503 None) "urgent"
  = default "Medium" (priority_class true true true true "urgent")
  /\ ("urgent" ∉ ["0 - Critical"; "0"; "critical"; "Critical";
                  "1 - High"; "1"; "high"; "High";
                  "2 - Medium"; "2"; "medium"; "Medium";
                  "3 - Low"; "3"; "low"; "Low"] ->
      Router.mapped_priority (Router.SchemaReplied 503 None) "urgent" = "Medium").
Proof.
  apply (mapped_priority_fallback (Router.SchemaReplied 503 None) "urgent").
  left. discriminate.
Defined.

(** ** The user endpoints of the router *)

(** X19.  [/users/match] answers in one of two shapes.  Found: a member
    of the directory with a confidence between 0 and 1 and no
    suggestions.  Not found: no user, no confidence, and at most three
    suggestions, in descending order of score, each for a named member of
    the directory and scoring more than 0.3. *)
Theorem router_match_response_shape (users : list user) (name : string) :
  let r := Router.match_user_name (load users) name in
  match find_user_by_name (load users) name with
  | Some m =>
      Router.found r = true
      /\ In m users
      /\ (exists fu, Router.user_found r = Some fu
                     /\ Router.fu_id fu = user_id m
                     /\ Router.fu_name fu = user_name m)
      /\ (exists c, Router.confidence_score r = Some c /\ 0 <= c <= 1)
      /\ Router.suggestions r = None
  | None =>
      Router.found r = false
      /\ Router.user_found r = None
      /\ Router.confidence_score r = None
      /\ exists l,
           Router.suggestions r = Some (map Router.format_suggestion l)
           /\ (length l <= 3)%nat
           /\ descending l
           /\ Forall (fun s => In (sug_user s) users
                               /\ named (sug_user s) = true
                               /\ 0.3 < sug_score s) l
  end.
Proof.
  cbv zeta. unfold Router.match_user_name.
  destruct (find_user_by_name (load users) name) as [m|] eqn:Hf;
    cbn [Router.found Router.user_found Router.confidence_score
         Router.suggestions].
  - split; [done|]. split; [by apply find_user_by_name_sound in Hf as [? _]|].
    split; [eexists; split; [reflexivity|by split]|].
    split; [|done]. eexists. split; [reflexivity | apply ratio_bounds].
  - split; [done|]. split; [done|]. split; [done|].
    exists (get_name_suggestions (load users) name 3). split; [done|].
    unfold get_name_suggestions.
    destruct (negb (PyStr.truthy name) || _).
    { split; [cbn; lia|]. split; constructor. }
    split; [|split].
    + pose proof (length_slice_to
        (sort_desc (candidates (PyStr.lower (PyStr.strip name))
                      (workspace_users (load users)))) 3 ltac:(lia)). lia.
    + unfold slice_to. cbn [Z.leb Z.compare]. apply descending_firstn.
      apply sort_desc_descending.
    + apply List.Forall_forall. intros s Hs%In_slice_to.
      apply (Permutation_in _ (sort_desc_perm _)) in Hs.
      by apply In_candidates in Hs as (u & Hu & Hn & -> & H3).
Qed.

(** X20.  [get_notion_user_id] returns an id exactly when the resolution
    gives a non-empty id, and then it is the id of a named member of the
    directory; in every other case it raises. *)
Theorem get_notion_user_id_spec (users : list user) (name i : string) :
  (Router.get_notion_user_id (load users) name = Router.Returned i
   <-> get_user_id_by_name (load users) name = Some i /\ i <> EmptyString)
  /\ (Router.get_notion_user_id (load users) name = Router.Returned i ->
      exists u, In u users /\ named u = true /\ user_id u = i).
Proof.
  unfold Router.get_notion_user_id, get_user_id_by_name.
  destruct (find_user_by_name (load users) name) as [m|] eqn:Hf.
  2:{ split; [split; [discriminate | by intros [? _]] | discriminate]. }
  destruct (PyStr.truthy (user_id m)) eqn:Hi.
  - split.
    + split.
      * intros [= <-]. split; [done|]. by apply truthy_nonempty.
      * by intros [[= <-] _].
    + intros [= <-]. by apply find_user_by_name_sound in Hf as [_ ?].
  - split; [|discriminate]. split; [discriminate|].
    intros [[= <-] Hne]. by destruct (user_id m).
Qed.

Lemma get_notion_user_id_spec_witness :
  Router.get_notion_user_id (load [dinesh; divya]) "Dines" = Router.Returned "u1".
Proof.
  apply (proj1 (get_notion_user_id_spec [dinesh; divya] "Dines" "u1")).
  split; [vm_compute; reflexivity | discriminate].
Defined.

(** ** Case and padding of a query *)

(** X21.  Resolution and suggestions ignore the case of the text and the
    white space around it: for any manager, a text that is not blank
    gives the same results as its lower-cased form and as its trimmed
    form. *)
Theorem query_case_and_padding_ignored
    (self : manager) (q : string) (limit : Z) :
  PyStr.truthy (PyStr.strip q) = true ->
  find_user_by_name self (PyStr.lower q) = find_user_by_name self q
  /\ find_user_by_name self (PyStr.strip q) = find_user_by_name self q
  /\ get_name_suggestions self (PyStr.lower q) limit
     = get_name_suggestions self q limit
  /\ get_name_suggestions self (PyStr.strip q) limit
     = get_name_suggestions self q limit.
Proof.
  intros Hs. pose proof (truthy_strip q Hs) as Hq.
  assert (Hl : PyStr.truthy (PyStr.lower q) = true) by (by rewrite lower_truthy).
  assert (Hn1 : PyStr.lower (PyStr.strip (PyStr.lower q))
                = PyStr.lower (PyStr.strip q))
    by (by rewrite strip_lower, lower_idem).
  assert (Hn2 : PyStr.lower (PyStr.strip (PyStr.strip q))
                = PyStr.lower (PyStr.strip q))
    by (by rewrite strip_idem).
  unfold find_user_by_name, get_name_suggestions.
  rewrite Hq, Hl, Hs, Hn1, Hn2. done.
Qed.

Lemma query_case_and_padding_ignored_witness :
  find_user_by_name (load [dinesh; divya]) (PyStr.lower "  DINES ")
    = find_user_by_name (load [dinesh; divya]) "  DINES "
  /\ find_user_by_name (load [dinesh; divya]) (PyStr.strip "  DINES ")
     = find_user_by_name (load [dinesh; divya]) "  DINES "
  /\ get_name_suggestions (load [dinesh; divya]) (PyStr.lower "  DINES ") 5
     = get_name_suggestions (load [dinesh; divya]) "  DINES " 5
  /\ get_name_suggestions (load [dinesh; divya]) (PyStr.strip "  DINES ") 5
     = get_name_suggestions (load [dinesh; divya]) "  DINES " 5.
Proof.
  apply (query_case_and_padding_ignored (load [dinesh; divya]) "  DINES " 5).
  reflexivity.
Defined.
